(** * Michi-Strobo: the audio feature extractor and the canvas renderer

    A shallow embedding of [src/hooks/useAudioAnalyzer.ts] (the React hook
    that captures the microphone and publishes an [AudioData] snapshot per
    animation frame), of the signal-strength indicator of [src/App.tsx] and
    of [src/components/Visualizers.tsx] (the three canvas modes).

    Numbers.  A JavaScript number is modelled as an exact rational ([Q]).
    Every integer the program handles (byte samples, sums of at most a few
    thousand of them, array lengths, frame handles) is exact in binary64 as
    well, and the comparisons the program makes ([i < length * 0.15],
    [bass > 0.5], ...) are between values that are either equal in both
    models or far apart, so the branches taken are the same; the module
    [Binary64] runs the extractor's loop on doubles to check this on the
    scenarios.  [Math.sin] and [Math.PI] are parameters of the renderer.
    Division by zero (only possible for an empty sample buffer, which the
    analyser never delivers) is [0] in [Q] and [NaN] in JavaScript.

    Effects.  The hook is a state machine over its refs, its published
    snapshot and what the browser holds for it (pending microphone
    requests, live streams, running contexts, requested frames, the
    console); [start] is split at its [await].  A frame of the renderer
    runs in a monad that records the context operations issued and how
    many random numbers and clock readings were consumed. *)

From stdpp Require Import base list strings gmap.
From Stdlib Require Import QArith Qround Qabs Lqa.
From Stdlib Require Floats Uint63.
From Stdlib.Strings Require Import Byte.

Local Open Scope Q_scope.

(** ** JavaScript numbers *)

Module Js.

Definition number := Q.

(** [x < y] as the boolean a JavaScript [if] tests. *)
Definition ltb (x y : number) : bool := negb (Qle_bool y x).

(** [x > y]. *)
Definition gtb (x y : number) : bool := ltb y x.

Definition of_nat (n : nat) : number := inject_Z (Z.of_nat n).

(** [Math.min(a, b)]. *)
Definition Math_min (a b : number) : number := if ltb b a then b else a.

(** [Math.floor(x)], as an integer. *)
Definition Math_floor (x : number) : Z := Qfloor x.
Arguments Math_floor x%_Q.

(** [x % m] on numbers: the remainder has the sign of the dividend, the
    quotient being truncated towards zero. *)
Definition rem (x m : number) : number :=
  let q := x / m in
  x - m * inject_Z (Z.quot (Qnum q) (Zpos (Qden q))).

(** A [Uint8Array]: a sequence of bytes. *)
Definition Uint8Array := list byte.

(** Reading an element of a [Uint8Array] gives a number in 0..255. *)
Definition byte_val (b : byte) : number := inject_Z (Z.of_N (Byte.to_N b)).

(** [new Uint8Array(n)]: [n] zero bytes. *)
Definition new_Uint8Array (n : nat) : Uint8Array := replicate n x00.

End Js.

(** ** The hook [useAudioAnalyzer] *)

Module Analyzer.
Import Js.

(** [interface AudioData]. *)
Record AudioData := mkAudioData {
  volume : number;
  bass : number;
  mid : number;
  treble : number;
  frequencyData : Uint8Array;
  timeData : Uint8Array
}.

(** The four accumulators [volume], [bass], [mid], [treble] of [update]'s
    loop. *)
Record Sums := mkSums {
  sum_volume : number;
  peak_bass : number;
  sum_mid : number;
  sum_treble : number
}.

Definition zero_sums : Sums := mkSums 0 0 0 0.

(** One iteration of [for (let i = 0; i < data.length; i++)], at index [i]
    with [d = data[i]] and [len = data.length]. *)
Definition loop_body (len : number) (i : nat) (d : number) (s : Sums) : Sums :=
  let v := sum_volume s + d in
  if ltb (of_nat i) (len * 0.15) then
    if gtb d (peak_bass s)
    then mkSums v d (sum_mid s) (sum_treble s)
    else mkSums v (peak_bass s) (sum_mid s) (sum_treble s)
  else if ltb (of_nat i) (len * 0.5)
    then mkSums v (peak_bass s) (sum_mid s + d) (sum_treble s)
    else mkSums v (peak_bass s) (sum_mid s) (sum_treble s + d).

(** The loop from index [i] on, [rest] being [data[i..]]. *)
Fixpoint loop (len : number) (i : nat) (rest : Uint8Array) (s : Sums) : Sums :=
  match rest with
  | [] => s
  | d :: rest' => loop len (S i) rest' (loop_body len i (byte_val d) s)
  end.

(** The snapshot [update] hands to [setAudioData], from the two buffers
    the analyser has just filled. *)
Definition snapshot (data time : Uint8Array) : AudioData :=
  let s := loop (of_nat (length data)) 0 data zero_sums in
  let count := of_nat (length data) in
  {| volume := sum_volume s / count / 255;
     bass := peak_bass s / 255;
     mid := sum_mid s / (count * 0.35) / 255;
     treble := sum_treble s / (count * 0.5) / 255;
     frequencyData := data;
     timeData := time |}.

(** *** The session: refs, platform resources and the steps of the hook *)

(** [context.createAnalyser()] with its [fftSize]. *)
Record AnalyserNode := mkAnalyser { fftSize : nat }.

Definition frequencyBinCount (a : AnalyserNode) : nat := (fftSize a / 2)%nat.

(** An [AudioContext], named by the platform's handle for it. *)
Record AudioContext := mkContext { context_id : nat }.

(** [context.createMediaStreamSource(stream)], with the stream it reads. *)
Record MediaStreamAudioSourceNode := mkSource { mediaStream : nat }.

(** Why [getUserMedia] rejects: permission denied, or no input device. *)
Inductive MediaError := NotAllowedError | NotFoundError.

Inductive LogEntry :=
| console_error (msg : string) (err : MediaError).

(** [useState] and the six [useRef] cells of the hook. *)
Record Hook := mkHook {
  audioData : option AudioData;
  audioContextRef : option AudioContext;
  analyzerRef : option AnalyserNode;
  dataArrayRef : option Uint8Array;
  timeArrayRef : option Uint8Array;
  sourceRef : option MediaStreamAudioSourceNode;
  animationFrameRef : option positive
}.

(** What the browser holds on behalf of the hook.  A frame handle is a
    [positive]: [requestAnimationFrame] returns an integer greater than
    zero, so the truthiness test [if (animationFrameRef.current)] is a
    test for non-null. *)
Record Platform := mkPlatform {
  pending_requests : nat;           (* getUserMedia promises not yet settled *)
  live_streams : gset nat;          (* streams whose tracks are not stopped *)
  running_contexts : gset nat;      (* contexts whose state is not 'closed' *)
  frame_requests : gset positive;   (* callbacks requestAnimationFrame holds *)
  next_stream : nat;
  next_context : nat;
  next_frame : positive;
  console : list LogEntry
}.

Definition State : Type := Hook * Platform.

Definition initial_hook : Hook := mkHook None None None None None None None.

Definition initial_platform : Platform := mkPlatform 0 ∅ ∅ ∅ 0 0 1 [].

Definition initial : State := (initial_hook, initial_platform).

(** The hook holds nothing, and no request for the microphone is
    pending. *)
Definition idle (st : State) : Prop :=
  st.1 = initial_hook /\ pending_requests st.2 = 0%nat.

(** [analyser.getByteFrequencyData(array)] and [getByteTimeDomainData]:
    the analyser's samples [src] overwrite [dst] from index 0; the array
    keeps its length. *)
Definition fill (src dst : Uint8Array) : Uint8Array :=
  take (length dst) src ++ drop (length src) dst.

(** [const update = () => { ... }], [freq] and [time] being the samples
    the analyser holds when it runs. *)
Definition update (freq time : Uint8Array) (st : State) : State :=
  let '(h, p) := st in
  match analyzerRef h, dataArrayRef h, timeArrayRef h with
  | Some _, Some data, Some tdata =>
      let data' := fill freq data in
      let tdata' := fill time tdata in
      let id := next_frame p in
      (mkHook (Some (snapshot data' tdata'))
              (audioContextRef h) (analyzerRef h)
              (Some data') (Some tdata')
              (sourceRef h) (Some id),
       mkPlatform (pending_requests p) (live_streams p) (running_contexts p)
                  ({[ id ]} ∪ frame_requests p)
                  (next_stream p) (next_context p) (Pos.succ id) (console p))
  | _, _, _ => st
  end.

(** [start], up to its [await]: the guard, then the request for the
    microphone. *)
Definition start_call (st : State) : State :=
  let '(h, p) := st in
  match audioContextRef h with
  | Some _ => st
  | None =>
      (h, mkPlatform (S (pending_requests p)) (live_streams p) (running_contexts p)
                     (frame_requests p) (next_stream p) (next_context p)
                     (next_frame p) (console p))
  end.

(** How the promise of [getUserMedia] settles: it rejects, or it
    resolves with a stream ([freq] and [time] are then the samples the
    analyser holds when the first [update()] runs). *)
Inductive Settled :=
| Rejects (err : MediaError)
| Resolves (freq time : Uint8Array).

(** The [try] block of [start] from its [await] on: the error thrown, or
    the state it ends in.  It ends in the first [update()]. *)
Definition try_block (o : Settled) (st : State) : MediaError + State :=
  let '(h, p) := st in
  match o with
  | Rejects err => inl err
  | Resolves freq time =>
      let stream := next_stream p in
      let context := mkContext (next_context p) in
      let analyzer := mkAnalyser 256 in
      let source := mkSource stream in
      inr (update freq time
        (mkHook (audioData h)
                (Some context) (Some analyzer)
                (Some (new_Uint8Array (frequencyBinCount analyzer)))
                (Some (new_Uint8Array (frequencyBinCount analyzer)))
                (Some source) (animationFrameRef h),
         mkPlatform (pending_requests p) ({[ stream ]} ∪ live_streams p)
                    ({[ context_id context ]} ∪ running_contexts p)
                    (frame_requests p) (S stream) (S (next_context p))
                    (next_frame p) (console p)))
  end.

(** [catch (err) { console.error('Error accessing microphone:', err); }]. *)
Definition catch_block (err : MediaError) (st : State) : State :=
  let '(h, p) := st in
  (h, mkPlatform (pending_requests p) (live_streams p) (running_contexts p)
                 (frame_requests p) (next_stream p) (next_context p)
                 (next_frame p)
                 (console p ++ [console_error "Error accessing microphone:" err])).

(** [start] resumed when one of its pending requests settles. *)
Definition start_resume (o : Settled) (st : State) : State :=
  let '(h, p) := st in
  match pending_requests p with
  | O => st
  | S n =>
      let st' :=
        (h, mkPlatform n (live_streams p) (running_contexts p)
                       (frame_requests p) (next_stream p) (next_context p)
                       (next_frame p) (console p)) in
      match try_block o st' with
      | inl err => catch_block err st'
      | inr st'' => st''
      end
  end.

(** [const stop = useCallback(() => { ... })]. *)
Definition stop (st : State) : State :=
  let '(h, p) := st in
  let frames :=
    match animationFrameRef h with
    | Some id => frame_requests p ∖ {[ id ]}      (* cancelAnimationFrame *)
    | None => frame_requests p
    end in
  let contexts :=
    match audioContextRef h with
    | Some c => running_contexts p ∖ {[ context_id c ]}   (* close() unless closed *)
    | None => running_contexts p
    end in
  let streams :=
    match sourceRef h with
    | Some src => live_streams p ∖ {[ mediaStream src ]}  (* every track stopped *)
    | None => live_streams p
    end in
  (mkHook None None None None None None None,
   mkPlatform (pending_requests p) streams contexts frames
              (next_stream p) (next_context p) (next_frame p) (console p)).

(** The browser runs the frame callback with handle [id], if it is still
    requested. *)
Definition animation_frame (id : positive) (freq time : Uint8Array) (st : State) : State :=
  let '(h, p) := st in
  if decide (id ∈ frame_requests p) then
    update freq time
      (h, mkPlatform (pending_requests p) (live_streams p) (running_contexts p)
                     (frame_requests p ∖ {[ id ]})
                     (next_stream p) (next_context p) (next_frame p) (console p))
  else st.

(** What can happen to the hook. *)
Inductive Event :=
| CallStart
| MediaSettled (o : Settled)
| CallStop
| AnimationFrame (id : positive) (freq time : Uint8Array).

Definition step (st : State) (e : Event) : State :=
  match e with
  | CallStart => start_call st
  | MediaSettled o => start_resume o st
  | CallStop => stop st
  | AnimationFrame id freq time => animation_frame id freq time st
  end.

Definition run (st : State) (es : list Event) : State := fold_left step es st.

(** The effect of the hook: [if (isActive) start() else stop()], after
    the cleanup [stop()] of the effect it replaces. *)
Definition effect_events (isActive : bool) : list Event :=
  [CallStop; if isActive then CallStart else CallStop].

End Analyzer.

(** ** The loop of [update] in binary64

    The same loop over IEEE 754 double-precision numbers, the numbers
    JavaScript computes with, to evaluate the extractor on concrete
    buffers as a browser would. *)

Module Binary64.
Import Js PrimFloat.
#[local] Set Warnings "-inexact-float".
#[local] Open Scope float_scope.

Definition of_nat (n : nat) : float := of_uint63 (Uint63.of_Z (Z.of_nat n)).

Definition byte_val (b : byte) : float :=
  of_uint63 (Uint63.of_Z (Z.of_N (Byte.to_N b))).

(** The four scalars of [AudioData]. *)
Record Features := mkFeatures {
  volume : float;
  bass : float;
  mid : float;
  treble : float
}.

Record Sums := mkSums {
  sum_volume : float;
  peak_bass : float;
  sum_mid : float;
  sum_treble : float
}.

Definition loop_body (len : float) (i : nat) (d : float) (s : Sums) : Sums :=
  let v := sum_volume s + d in
  if ltb (of_nat i) (len * 0.15) then
    if ltb (peak_bass s) d
    then mkSums v d (sum_mid s) (sum_treble s)
    else mkSums v (peak_bass s) (sum_mid s) (sum_treble s)
  else if ltb (of_nat i) (len * 0.5)
    then mkSums v (peak_bass s) (sum_mid s + d) (sum_treble s)
    else mkSums v (peak_bass s) (sum_mid s) (sum_treble s + d).

Fixpoint loop (len : float) (i : nat) (rest : Uint8Array) (s : Sums) : Sums :=
  match rest with
  | [] => s
  | d :: rest' => loop len (S i) rest' (loop_body len i (byte_val d) s)
  end.

Definition features (data : Uint8Array) : Features :=
  let s := loop (of_nat (length data)) 0 data (mkSums 0 0 0 0) in
  let count := of_nat (length data) in
  {| volume := sum_volume s / count / 255;
     bass := peak_bass s / 255;
     mid := sum_mid s / (count * 0.35) / 255;
     treble := sum_treble s / (count * 0.5) / 255 |}.

(** The doubles 1.0 and 0.98214285714285721, the latter being the
    nearest to 55/56. *)
Definition one : float := 1.
Definition nearest_55_56 : float := 0x1.f6db6db6db6dcp-1.

End Binary64.

(** ** The signal-strength indicator of [App] *)

Module App.
Import Js Analyzer.

(** The class of segment [i]: [audioData.volume * 5 > i ? 'bg-emerald-400'
    : 'bg-white/10']. *)
Definition segment_lit (a : AudioData) (i : nat) : bool :=
  gtb (volume a * 5) (of_nat i).

(** [[...Array(5)].map((_, i) => ...)]. *)
Definition signal_strength (a : AudioData) : list bool :=
  map (segment_lit a) (seq 0 5).

End App.

(** ** The component [Visualizer] *)

Module Visualizers.
Import Js Analyzer.

(** [mode: 'pure' | 'cubic' | 'waves']. *)
Inductive Mode := pure | cubic | waves.

(** The colour strings the renderer assigns to the context.  A hue read
    past the end of [modernHues] would be [undefined] ([None]). *)
Inductive Style :=
| hex_000
| hex_fff
| rgba (r g b : Z) (a : number)
| hsl (h : option number) (s l : Z)
| hsla (h : number) (s l : Z) (a : number).

(** The calls and assignments a frame makes on the 2D context. *)
Inductive CanvasOp :=
| set_fillStyle (c : Style)
| set_strokeStyle (c : Style)
| set_lineWidth (w : number)
| set_lineCap_round
| set_shadowBlur (b : number)
| set_shadowColor (c : Style)
| fillRect (x y w h : number)
| strokeRect (x y w h : number)
| beginPath
| moveTo (x y : number)
| lineTo (x y : number)
| stroke
| arc (x y r a0 a1 : number)
| save
| restore
| translate (x y : number)
| rotate (a : number).

(** An element of [particlesRef.current]. *)
Record Particle := mkParticle {
  x : number;
  y : number;
  size : number;
  vx : number;
  vy : number;
  color : Style;
  rotation : number;
  rv : number
}.

Record Canvas := mkCanvas { width : number; height : number }.

(** What the browser supplies: [Math.sin], [Math.PI], the successive
    results of [Math.random()] and of [Date.now()]. *)
Record Browser := mkBrowser {
  Math_sin : number -> number;
  Math_PI : number;
  random_at : nat -> number;
  clock_at : nat -> Z
}.

(** How many results of [Math.random()] and of [Date.now()] have been
    consumed. *)
Record Cursor := mkCursor {
  draws : nat;
  reads : nat
}.

Definition origin : Cursor := mkCursor 0 0.

(** Code that issues context operations, draws random numbers and reads
    the clock: from the cursor it starts at, its result, the operations
    it has issued in order, and the cursor it ends at. *)
Definition M (A : Type) : Type := Cursor -> A * list CanvasOp * Cursor.

#[global] Instance M_ret : MRet M := fun A a c => (a, [], c).

#[global] Instance M_bind : MBind M :=
  fun A B k m c =>
    let '(a, ops, c') := m c in
    let '(b, ops', c'') := k a c' in
    (b, ops ++ ops', c'').

Definition ret {A} (a : A) : M A := mret a.

Definition ctx (op : CanvasOp) : M unit := fun c => (tt, [op], c).

Definition modernHues : list Z := [260; 180; 320; 20; 200]%Z.

(** [array[i]] for an integer [i]: [undefined] out of range. *)
Definition array_get {A} (l : list A) (i : Z) : option A :=
  if (i <? 0)%Z then None else l !! Z.to_nat i.

Section Rendering.
Variable B : Browser.

Definition Math_random : M number :=
  fun c => (random_at B (draws c), [], mkCursor (S (draws c)) (reads c)).

Definition Date_now : M number :=
  fun c => (inject_Z (clock_at B (reads c)), [], mkCursor (draws c) (S (reads c))).

(** The callback of [Array.from({ length: 45 }, () => { ... })]. *)
Definition new_particle (canvas : Canvas) : M Particle :=
  r ← Math_random;
  let hue := array_get modernHues (Math_floor (r * of_nat (length modernHues))) in
  rx ← Math_random;
  ry ← Math_random;
  rsize ← Math_random;
  rvx ← Math_random;
  rvy ← Math_random;
  rrot ← Math_random;
  rrv ← Math_random;
  ret {| x := rx * width canvas;
         y := ry * height canvas;
         size := rsize * 35 + 15;
         vx := (rvx - 0.5) * 6;
         vy := (rvy - 0.5) * 6;
         color := hsl (inject_Z <$> hue) 90 60;
         rotation := rrot * Math_PI B * 2;
         rv := (rrv - 0.5) * 0.15 |}.

(** [Array.from({ length: n }, f)]. *)
Fixpoint Array_from {A} (n : nat) (f : M A) : M (list A) :=
  match n with
  | O => ret []
  | S n' => a ← f; l ← Array_from n' f; ret (a :: l)
  end.

(** "Initialize particles for Cubic mode". *)
Definition init_particles (mode : Mode) (canvas : Canvas) (particles : list Particle)
  : M (list Particle) :=
  match mode, length particles with
  | cubic, O => Array_from 45 (new_particle canvas)
  | _, _ => ret particles
  end.

Definition fill_canvas (canvas : Canvas) : M unit :=
  ctx (fillRect 0 0 (width canvas) (height canvas)).

(** [for(let i=0; i<8; i++) { ... }], [n] iterations remaining. *)
Fixpoint glitch_lines (n : nat) (canvas : Canvas) : M unit :=
  match n with
  | O => ret tt
  | S n' =>
      r ← Math_random;
      let y := r * height canvas in
      ctx beginPath ;;
      ctx (moveTo 0 y) ;;
      ctx (lineTo (width canvas) y) ;;
      ctx stroke ;;
      glitch_lines n' canvas
  end.

(** The branch [mode === 'pure']. *)
Definition render_pure (volume bass : number) (canvas : Canvas) : M unit :=
  ctx (set_fillStyle (rgba 0 0 0 0.25)) ;;
  fill_canvas canvas ;;
  let pulseIntensity := volume * 0.1 in
  ctx (set_fillStyle (rgba 255 255 255 pulseIntensity)) ;;
  fill_canvas canvas ;;
  if gtb bass 0.5 then
    now ← Date_now;
    let hue := rem (now / 5) 360 in
    ctx (set_fillStyle (hsl (Some hue) 100 60)) ;;
    fill_canvas canvas ;;
    if gtb bass 0.8 then
      ctx (set_strokeStyle hex_fff) ;;
      ctx (set_lineWidth 15) ;;
      glitch_lines 8 canvas
    else ret tt
  else ret tt.

(** The assignments to [p] in the [forEach] callback: integration of
    the position and of the rotation, then the bounce. *)
Definition move_particle (bass treble : number) (canvas : Canvas) (p : Particle)
  : Particle :=
  let px := x p + vx p * (1 + bass * 8) in
  let py := y p + vy p * (1 + bass * 8) in
  let protation := rotation p + rv p * (1 + treble * 5) in
  let pvx := if ltb px 0 || gtb px (width canvas) then vx p * -1 else vx p in
  let pvy := if ltb py 0 || gtb py (height canvas) then vy p * -1 else vy p in
  {| x := px; y := py; size := size p; vx := pvx; vy := pvy;
     color := color p; rotation := protation; rv := rv p |}.

(** The drawing half of the [forEach] callback, on the particle as
    moved. *)
Definition draw_particle (bass mid : number) (p : Particle) : M unit :=
  let scale := 1 + bass * 1.5 in
  ctx save ;;
  ctx (translate (x p) (y p)) ;;
  ctx (rotate (rotation p)) ;;
  let hueShift := mid * 100 in
  ctx (set_fillStyle (color p)) ;;
  ctx (set_shadowBlur (20 * bass)) ;;
  ctx (set_shadowColor (color p)) ;;
  let s := size p * scale in
  ctx (fillRect (- s / 2) (- s / 2) s s) ;;
  ctx (set_strokeStyle (rgba 255 255 255 (0.3 + bass * 0.7))) ;;
  ctx (set_lineWidth 2) ;;
  ctx (strokeRect (- s / 2) (- s / 2) s s) ;;
  ctx (set_fillStyle (rgba 255 255 255 0.1)) ;;
  ctx (fillRect (- s / 4) (- s / 4) (s / 2) (s / 2)) ;;
  ctx restore.

(** [particlesRef.current.forEach(p => { ... })]: every particle is
    updated in place and drawn, in order. *)
Fixpoint forEach_particle (bass mid treble : number) (canvas : Canvas)
  (particles : list Particle) : M (list Particle) :=
  match particles with
  | [] => ret []
  | p :: rest =>
      let p' := move_particle bass treble canvas p in
      draw_particle bass mid p' ;;
      rest' ← forEach_particle bass mid treble canvas rest;
      ret (p' :: rest')
  end.

(** The branch [mode === 'cubic']. *)
Definition render_cubic (bass mid treble : number) (canvas : Canvas)
  (particles : list Particle) : M (list Particle) :=
  ctx (set_fillStyle (rgba 0 0 0 0.2)) ;;
  fill_canvas canvas ;;
  forEach_particle bass mid treble canvas particles.

(** [for (let i = 0; i < frequencyData.length / 2; i++) { ... }] of
    ribbon [j], from index [i] on; [rest] is [frequencyData[i..]] and
    [x] the running abscissa. *)
Fixpoint ribbon (half sliceWidth bass : number) (canvas : Canvas) (j i : nat)
  (rest : Uint8Array) (x : number) : M unit :=
  match rest with
  | [] => ret tt
  | d :: rest' =>
      if ltb (of_nat i) half then
        let v := byte_val d / 128 in
        now ← Date_now;
        let offset :=
          Math_sin B (of_nat i * 0.12 + now * 0.003 + of_nat j) * 120 * bass in
        let y := height canvas / 2 - v * height canvas / 4 + offset in
        (if Nat.eqb i 0 then ctx (moveTo x y) else ctx (lineTo x y)) ;;
        ribbon half sliceWidth bass canvas j (S i) rest' (x + sliceWidth)
      else ret tt
  end.

(** [for (let j = 0; j < modernHues.length; j++) { ... }], from ribbon
    [j] on; [hues] is [modernHues[j..]]. *)
Fixpoint ribbons (volume bass : number) (frequencyData : Uint8Array)
  (canvas : Canvas) (j : nat) (hues : list Z) : M unit :=
  match hues with
  | [] => ret tt
  | baseHue :: hues' =>
      let half := of_nat (length frequencyData) / 2 in
      let sliceWidth := width canvas / half in
      ctx beginPath ;;
      now ← Date_now;
      let hue := rem (inject_Z baseHue + Math_sin B (now * 0.001) * 20) 360 in
      ctx (set_strokeStyle (hsla hue 90 60 (0.5 + bass * 0.5))) ;;
      ctx (set_lineWidth (3 + volume * 20)) ;;
      ctx set_lineCap_round ;;
      ctx (set_shadowBlur (15 * volume)) ;;
      ctx (set_shadowColor (hsla hue 90 60 0.6)) ;;
      ribbon half sliceWidth bass canvas j 0 frequencyData 0 ;;
      ctx stroke ;;
      ribbons volume bass frequencyData canvas (S j) hues'
  end.

(** The branch [mode === 'waves']. *)
Definition render_waves (volume bass : number) (frequencyData : Uint8Array)
  (canvas : Canvas) : M unit :=
  ctx (set_fillStyle (rgba 0 0 0 0.12)) ;;
  fill_canvas canvas ;;
  ribbons volume bass frequencyData canvas 0 modernHues ;;
  ctx beginPath ;;
  ctx (arc (width canvas / 2) (height canvas / 2) (50 + bass * 150) 0 (Math_PI B * 2)) ;;
  ctx (set_strokeStyle (rgba 255 255 255 (bass * 0.3))) ;;
  ctx (set_lineWidth 2) ;;
  ctx stroke.

(** [const render = () => { ... }]: one frame.  It returns the particle
    array as the frame leaves it. *)
Definition render (audioData : option AudioData) (mode : Mode) (sensitivity : number)
  (canvas : Canvas) (particles : list Particle) : M (list Particle) :=
  match audioData with
  | None =>
      ctx (set_fillStyle hex_000) ;;
      fill_canvas canvas ;;
      ret particles
  | Some a =>
      let volume := Math_min 1 (Analyzer.volume a * sensitivity) in
      let bass := Math_min 1 (Analyzer.bass a * sensitivity) in
      let mid := Math_min 1 (Analyzer.mid a * sensitivity) in
      let treble := Math_min 1 (Analyzer.treble a * sensitivity) in
      match mode with
      | pure => render_pure volume bass canvas ;; ret particles
      | cubic => render_cubic bass mid treble canvas particles
      | waves => render_waves volume bass (frequencyData a) canvas ;; ret particles
      end
  end.

(** *** The component across renders *)

(** [interface VisualizerProps]. *)
Record VisualizerProps := mkProps {
  audioData : option AudioData;
  mode : Mode;
  sensitivity : number
}.

(** What outlives one run of the effect: [particlesRef], the canvas
    element's size, and the props the scheduled [render] closes over
    ([None] when no frame is requested). *)
Record Component := mkComponent {
  particlesRef : list Particle;
  canvas : Canvas;
  scheduled : option VisualizerProps
}.

(** A canvas element starts 300 by 150. *)
Definition mount : Component := mkComponent [] (mkCanvas 300 150) None.

(** The body of [useEffect(() => { ... }, [audioData, mode,
    sensitivity])]: [resize()], the initialisation of the particles,
    the first [render()].  [has_canvas] is false when [canvasRef.current]
    or its 2D context is missing; [window] is the viewport. *)
Definition effect (has_canvas : bool) (window : Canvas) (props : VisualizerProps)
  (c : Component) : M Component :=
  if has_canvas then
    particles ← init_particles (mode props) window (particlesRef c);
    particles' ← render (audioData props) (mode props) (sensitivity props)
                        window particles;
    ret (mkComponent particles' window (Some props))
  else ret (mkComponent (particlesRef c) (canvas c) None).

(** What can happen to the component. *)
Inductive Event :=
| Effect (has_canvas : bool) (window : Canvas) (props : VisualizerProps)
| Frame
| Resize (window : Canvas)
| Cleanup.

Definition step (c : Component) (e : Event) : M Component :=
  match e with
  | Effect has_canvas window props =>
      (* the cleanup of the effect it replaces, then the effect *)
      effect has_canvas window props c
  | Frame =>
      match scheduled c with
      | Some props =>
          particles ← render (audioData props) (mode props) (sensitivity props)
                             (canvas c) (particlesRef c);
          ret (mkComponent particles (canvas c) (scheduled c))
      | None => ret c
      end
  | Resize window =>
      match scheduled c with
      | Some _ => ret (mkComponent (particlesRef c) window (scheduled c))
      | None => ret c
      end
  | Cleanup => ret (mkComponent (particlesRef c) (canvas c) None)
  end.

Fixpoint run (c : Component) (es : list Event) : M Component :=
  match es with
  | [] => ret c
  | e :: es' => c' ← step c e; run c' es'
  end.

End Rendering.

End Visualizers.


(** ** The specification's reading of the features *)

Module Spec.
Import Js.

Definition byte_int (b : byte) : Z := Z.of_N (Byte.to_N b).

(** Sum and maximum of a run of bins, as integers. *)
Definition total (bins : Uint8Array) : Z := foldr Z.add 0%Z (byte_int <$> bins).
Definition peak (bins : Uint8Array) : Z := foldr Z.max 0%Z (byte_int <$> bins).

(** The number of indices [i = 0, 1, ...] with [i < q]. *)
Definition below (q : number) : nat := Z.to_nat (Qceiling q).
Arguments below q%_Q.

(** The indices [i < 0.15 N], then [0.15 N <= i < 0.5 N], then
    [0.5 N <= i]. *)
Definition bass_slice (bins : Uint8Array) : Uint8Array :=
  take (below (0.15 * of_nat (length bins))) bins.

Definition mid_slice (bins : Uint8Array) : Uint8Array :=
  drop (below (0.15 * of_nat (length bins)))
       (take (below (0.5 * of_nat (length bins))) bins).

Definition treble_slice (bins : Uint8Array) : Uint8Array :=
  drop (below (0.5 * of_nat (length bins))) bins.

(** [bins[0 .. floor(0.15 N))]. *)
Definition floor_slice (bins : Uint8Array) : Uint8Array :=
  take (Z.to_nat (Qfloor (0.15 * of_nat (length bins)))) bins.

(** A feature within the data model's range. *)
Definition in_unit (q : number) : Prop := 0 <= q /\ q <= 1.

(** A snapshot within the data model's ranges. *)
Definition bounded (a : Analyzer.AudioData) : Prop :=
  in_unit (Analyzer.volume a) /\ in_unit (Analyzer.bass a) /\
  in_unit (Analyzer.mid a) /\ in_unit (Analyzer.treble a).

(** A buffer of [n + 1] bins, all zero but [spike] at index 0. *)
Definition spike_at_0 (spike : byte) (n : nat) : Uint8Array :=
  spike :: replicate n x00.

(** Accumulators of the loop that hold integers. *)
Definition isums (v m md tr : Z) : Analyzer.Sums :=
  Analyzer.mkSums (inject_Z v) (inject_Z m) (inject_Z md) (inject_Z tr).

End Spec.

(** ** Concrete inputs *)

Module Inputs.
Import Js Analyzer.

(** 128 bins, all 255. *)
Definition all_255 : Uint8Array := replicate 128 xff.

(** 128 bins, all zero but 255 at index 19. *)
Definition spike_at_19 : Uint8Array := replicate 19 x00 ++ [xff] ++ replicate 108 x00.

(** 128 bins, all zero but 1 at index 0. *)
Definition faint : Uint8Array := x01 :: replicate 127 x00.

(** Three bins, the last one 255. *)
Definition three_bins : Uint8Array := [x00; x00; xff].

(** 17 bins, all 255. *)
Definition seventeen_bins : Uint8Array := replicate 17 xff.

(** A silent time-domain buffer: 128 samples at mid-scale. *)
Definition silence : Uint8Array := replicate 128 x80.

(** An 800 by 600 viewport, and a particle one pixel from its top left
    corner that moves up and left at two pixels a frame. *)
Definition viewport : Visualizers.Canvas := Visualizers.mkCanvas 800 600.

Definition leaving : Visualizers.Particle :=
  Visualizers.mkParticle 1 1 15 (-2) (-2)
    (Visualizers.hsl (Some 260) 90 60) 0 0.

End Inputs.

(** ** Frames of mode "pure", operation by operation *)

Module Frames.
Import Js Visualizers.

(** The fade and the wash every frame of the mode starts with. *)
Definition fade_and_wash (canvas : Canvas) (wash : number) : list CanvasOp :=
  [set_fillStyle (rgba 0 0 0 0.25);
   fillRect 0 0 (width canvas) (height canvas);
   set_fillStyle (rgba 255 255 255 wash);
   fillRect 0 0 (width canvas) (height canvas)].

(** The full-screen flash, its hue taken from clock reading [k]. *)
Definition flash (B : Browser) (canvas : Canvas) (k : nat) : list CanvasOp :=
  [set_fillStyle (hsl (Some (rem (inject_Z (clock_at B k) / 5) 360)) 100 60);
   fillRect 0 0 (width canvas) (height canvas)].

(** A full-width horizontal line at the height random draw [k] gives. *)
Definition glitch_line (B : Browser) (canvas : Canvas) (k : nat) : list CanvasOp :=
  let y := random_at B k * height canvas in
  [beginPath; moveTo 0 y; lineTo (width canvas) y; stroke].

(** Eight white lines, 15 wide, from the draws [k], [k + 1], ... *)
Definition glitch (B : Browser) (canvas : Canvas) (k : nat) : list CanvasOp :=
  [set_strokeStyle hex_fff; set_lineWidth 15]
  ++ concat (map (fun i => glitch_line B canvas (i + k)) (seq 0 8)).

End Frames.

(** ** What frames and sessions look like *)

Module Behaviour.
Import Js Analyzer Visualizers.

(** The thirteen context operations that draw one particle, as
    [draw_particle] issues them. *)
Definition particle_ops (bass : number) (p : Particle) : list CanvasOp :=
  let s := size p * (1 + bass * 1.5) in
  [save; translate (x p) (y p); rotate (rotation p);
   set_fillStyle (color p); set_shadowBlur (20 * bass); set_shadowColor (color p);
   fillRect (- s / 2) (- s / 2) s s;
   set_strokeStyle (rgba 255 255 255 (0.3 + bass * 0.7)); set_lineWidth 2;
   strokeRect (- s / 2) (- s / 2) s s;
   set_fillStyle (rgba 255 255 255 0.1);
   fillRect (- s / 4) (- s / 4) (s / 2) (s / 2);
   restore].

(** [p'] is [p] some frames later: same size, colour and spin, same speed
    along each axis. *)
Definition conserved (p p' : Particle) : Prop :=
  size p' = size p /\ color p' = color p /\ rv p' = rv p /\
  Qabs (vx p') == Qabs (vx p) /\ Qabs (vy p') == Qabs (vy p).

(** A particle as the initialisation makes them on [canvas]. *)
Definition spawned (B : Browser) (canvas : Canvas) (p : Particle) : Prop :=
  (0 <= x p /\ x p < width canvas) /\
  (0 <= y p /\ y p < height canvas) /\
  (15 <= size p /\ size p < 50) /\
  (-3 <= vx p /\ vx p < 3) /\
  (-3 <= vy p /\ vy p < 3) /\
  (exists hue : Z, hue ∈ modernHues /\ color p = hsl (Some (inject_Z hue)) 90 60) /\
  (0 <= rotation p /\ rotation p < Math_PI B * 2) /\
  (-0.075 <= rv p /\ rv p < 0.075).

(** Every result of [Math.random()] is in [0, 1). *)
Definition unit_random (B : Browser) : Prop :=
  forall n : nat, 0 <= random_at B n /\ random_at B n < 1.

(** An event other than a run of the effect. *)
Definition no_effect (e : Visualizers.Event) : bool :=
  match e with
  | Effect _ _ _ => false
  | _ => true
  end.

(** The hook holds a whole session or none: either every ref and the
    snapshot are null, or all are set, the analyser has [fftSize] 256, both
    buffers have 128 samples, the snapshot carries their contents, the
    frame in [animationFrameRef] is requested, the stream is live and the
    context is running. *)
Definition coherent (st : State) : Prop :=
  st.1 = initial_hook \/
  exists a c d td src id,
    st.1 = mkHook (Some a) (Some c) (Some (mkAnalyser 256)) (Some d) (Some td)
                  (Some src) (Some id) /\
    length d = 128%nat /\ length td = 128%nat /\
    frequencyData a = d /\ timeData a = td /\
    id ∈ frame_requests st.2 /\
    mediaStream src ∈ live_streams st.2 /\
    context_id c ∈ running_contexts st.2.

(** A browser whose random numbers are all 1/2 and whose clock stands at
    zero, with 3 for [Math.PI] and the identity for [Math.sin]. *)
Definition still : Browser := mkBrowser (fun q => q) 3 (fun _ => 0.5) (fun _ => 0%Z).

End Behaviour.

(** * Properties *)

Import Js Analyzer Spec Inputs.

(** ** Numbers *)

Lemma ltb_lt (x y : number) : ltb x y = true <-> x < y.
Proof.
  unfold ltb. rewrite negb_true_iff, <- not_true_iff_false, Qle_bool_iff.
  split; [apply Qnot_le_lt | apply Qlt_not_le].
Qed.

Lemma ltb_inject (a b : Z) : ltb (inject_Z a) (inject_Z b) = (a <? b)%Z.
Proof.
  apply eq_true_iff_eq. rewrite ltb_lt, <- Zlt_Qlt. symmetry. apply Z.ltb_lt.
Qed.

Lemma inject_plus (a b : Z) : inject_Z a + inject_Z b = inject_Z (a + b).
Proof. unfold inject_Z, Qplus. cbn. f_equal. lia. Qed.

(** An integer is below [q] exactly when it is one of the first
    [ceil q] naturals. *)
Lemma ltb_below (i : nat) (q : number) :
  ltb (of_nat i) q = true <-> (i < below q)%nat.
Proof.
  rewrite ltb_lt. unfold below, of_nat. split; intros H.
  - assert (Hq : inject_Z (Z.of_nat i) < inject_Z (Qceiling q))
      by (eapply Qlt_le_trans; [exact H | apply Qle_ceiling]).
    rewrite <- Zlt_Qlt in Hq. lia.
  - assert (Hz : (Z.of_nat i <= Qceiling q - 1)%Z) by lia.
    rewrite Zle_Qle in Hz.
    eapply Qle_lt_trans; [exact Hz | apply Qceiling_lt].
Qed.

Lemma below_lt (i : nat) (q : number) : (i < below q)%nat <-> of_nat i < q.
Proof. by rewrite <- ltb_below, ltb_lt. Qed.

Lemma ltb_not_below (i : nat) (q : number) :
  ltb (of_nat i) q = false <-> (below q <= i)%nat.
Proof.
  rewrite <- not_true_iff_false, ltb_below. lia.
Qed.

Lemma below_mono (p q : number) : p <= q -> (below p <= below q)%nat.
Proof.
  intros H. unfold below. apply Qceiling_resp_le in H. lia.
Qed.

Lemma below_015 (n : nat) :
  below (of_nat n * 0.15) = Z.to_nat (- (- (Z.of_nat n * 15) / 100))%Z.
Proof. reflexivity. Qed.

Lemma below_05 (n : nat) :
  below (of_nat n * 0.5) = Z.to_nat (- (- (Z.of_nat n * 5) / 10))%Z.
Proof. reflexivity. Qed.

Lemma below_comm (n : nat) (c : number) : below (c * of_nat n) = below (of_nat n * c).
Proof.
  unfold below. f_equal. apply Qceiling_comp. apply Qmult_comm.
Qed.

(** ** The loop of [update] *)

(** Two such records are equal when their integers are. *)
Ltac sums_eq :=
  unfold isums, total, peak; cbn; f_equal; apply (f_equal inject_Z); lia.

Lemma byte_val_int (d : byte) : byte_val d = inject_Z (byte_int d).
Proof. reflexivity. Qed.

Lemma byte_int_range (d : byte) : (0 <= byte_int d <= 255)%Z.
Proof.
  unfold byte_int. pose proof (Byte.to_N_bounded d) as H. lia.
Qed.

Lemma loop_app (len : number) (l1 l2 : Uint8Array) (i : nat) (s : Sums) :
  loop len i (l1 ++ l2) s = loop len (i + length l1) l2 (loop len i l1 s).
Proof.
  revert i s. induction l1 as [|d l1 IH]; intros i s; cbn [loop app length].
  - by rewrite Nat.add_0_r.
  - rewrite IH. f_equal. lia.
Qed.

(** Indices below [0.15 len]: the running maximum. *)
Lemma loop_bass (len : number) (l : Uint8Array) (i : nat) (v m md tr : Z) :
  (0 <= m)%Z ->
  (i + length l <= below (len * 0.15))%nat ->
  loop len i l (isums v m md tr)
  = isums (v + total l) (Z.max m (peak l)) md tr.
Proof.
  revert i v m. induction l as [|d l IH]; intros i v m Hm Hi; cbn [loop length] in *.
  - sums_eq.
  - assert (Hlt : ltb (of_nat i) (len * 0.15) = true) by (apply ltb_below; lia).
    unfold loop_body at 1. cbn [sum_volume peak_bass sum_mid sum_treble isums].
    rewrite Hlt, byte_val_int. unfold gtb. rewrite ltb_inject, inject_plus.
    destruct (Z.ltb_spec m (byte_int d));
      (etrans; [apply (IH (S i)); lia |]); sums_eq.
Qed.

(** Indices from [0.15 len] and below [0.5 len]: the sum [mid]. *)
Lemma loop_mid (len : number) (l : Uint8Array) (i : nat) (v m md tr : Z) :
  (below (len * 0.15) <= i)%nat ->
  (i + length l <= below (len * 0.5))%nat ->
  loop len i l (isums v m md tr)
  = isums (v + total l) m (md + total l) tr.
Proof.
  revert i v md. induction l as [|d l IH]; intros i v md Hlo Hi; cbn [loop length] in *.
  - sums_eq.
  - assert (H1 : ltb (of_nat i) (len * 0.15) = false) by (by apply ltb_not_below).
    assert (H2 : ltb (of_nat i) (len * 0.5) = true) by (apply ltb_below; lia).
    unfold loop_body at 1. cbn [sum_volume peak_bass sum_mid sum_treble isums].
    rewrite H1, H2, byte_val_int, !inject_plus.
    etrans; [apply (IH (S i)); lia |].
    sums_eq.
Qed.

(** Indices from [0.5 len] on: the sum [treble]. *)
Lemma loop_treble (len : number) (l : Uint8Array) (i : nat) (v m md tr : Z) :
  (below (len * 0.15) <= i)%nat ->
  (below (len * 0.5) <= i)%nat ->
  loop len i l (isums v m md tr)
  = isums (v + total l) m md (tr + total l).
Proof.
  revert i v tr. induction l as [|d l IH]; intros i v tr Hlo Hhi; cbn [loop length] in *.
  - sums_eq.
  - assert (H1 : ltb (of_nat i) (len * 0.15) = false) by (by apply ltb_not_below).
    assert (H2 : ltb (of_nat i) (len * 0.5) = false) by (by apply ltb_not_below).
    unfold loop_body at 1. cbn [sum_volume peak_bass sum_mid sum_treble isums].
    rewrite H1, H2, byte_val_int, !inject_plus.
    etrans; [apply (IH (S i)); lia |].
    sums_eq.
Qed.

Lemma total_app (l1 l2 : Uint8Array) : total (l1 ++ l2) = (total l1 + total l2)%Z.
Proof.
  unfold total. induction l1 as [|d l1 IH]; cbn; [done | rewrite IH; lia].
Qed.

Lemma below_bounds (n : nat) :
  (below (of_nat n * 0.15) <= below (of_nat n * 0.5))%nat /\
  (below (of_nat n * 0.5) <= n)%nat.
Proof. rewrite below_015, below_05. Z.div_mod_to_equations. lia. Qed.

(** The three slices partition the buffer. *)
Lemma slices_partition (data : Uint8Array) :
  data = bass_slice data ++ mid_slice data ++ treble_slice data.
Proof.
  unfold bass_slice, mid_slice, treble_slice. rewrite !below_comm.
  destruct (below_bounds (length data)) as [Hab Hb].
  set (a := below (of_nat (length data) * 0.15)) in *.
  set (b := below (of_nat (length data) * 0.5)) in *.
  etrans; [symmetry; apply (take_drop b data) |].
  rewrite app_assoc. f_equal.
  etrans; [symmetry; apply (take_drop a (take b data)) |].
  f_equal. rewrite take_take. f_equal. lia.
Qed.

(** What the loop leaves in its accumulators. *)
Lemma loop_slices (data : Uint8Array) :
  loop (of_nat (length data)) 0 data zero_sums
  = isums (total data) (peak (bass_slice data))
          (total (mid_slice data)) (total (treble_slice data)).
Proof.
  rewrite (slices_partition data) at 2.
  pose proof (f_equal total (slices_partition data)) as Ht.
  rewrite !total_app in Ht.
  unfold bass_slice, mid_slice, treble_slice in *. rewrite !below_comm in *.
  destruct (below_bounds (length data)) as [Hab Hb].
  set (len := of_nat (length data)) in *.
  set (a := below (len * 0.15)) in *. set (b := below (len * 0.5)) in *.
  change zero_sums with (isums 0 0 0 0).
  assert (La : length (take a data) = a) by (rewrite length_take; lia).
  assert (Lm : length (drop a (take b data)) = (b - a)%nat)
    by (rewrite length_drop, length_take; lia).
  rewrite !loop_app, La, Lm.
  rewrite loop_bass by (fold a; lia).
  rewrite loop_mid by (fold a; fold b; lia).
  rewrite loop_treble by (fold a; fold b; lia).
  f_equal; f_equal; try lia.
  assert (Hp : forall l, (0 <= peak l)%Z).
  { intros l. unfold peak. induction l as [|d l IH]; cbn; lia. }
  specialize (Hp (take a data)). lia.
Qed.

(** ** The published features *)

Lemma snapshot_features (data time : Uint8Array) :
  let n := of_nat (length data) in
  volume (snapshot data time) = inject_Z (total data) / n / 255 /\
  bass (snapshot data time) = inject_Z (peak (bass_slice data)) / 255 /\
  mid (snapshot data time) = inject_Z (total (mid_slice data)) / (n * 0.35) / 255 /\
  treble (snapshot data time) = inject_Z (total (treble_slice data)) / (n * 0.5) / 255.
Proof.
  unfold snapshot. cbn [volume bass mid treble]. rewrite loop_slices. by cbn.
Qed.

Lemma total_range (l : Uint8Array) : (0 <= total l <= 255 * Z.of_nat (length l))%Z.
Proof.
  unfold total. induction l as [|d l IH]; cbn [fmap list_fmap foldr length]; [lia |].
  pose proof (byte_int_range d). lia.
Qed.

Lemma peak_range (l : Uint8Array) : (0 <= peak l <= 255)%Z.
Proof.
  unfold peak. induction l as [|d l IH]; cbn [fmap list_fmap foldr]; [lia |].
  pose proof (byte_int_range d). lia.
Qed.

(** [t / c / 255] is in the unit interval when [0 <= t <= 255 c]. *)
Lemma unit_ratio (t : Z) (c : number) :
  0 < c -> (0 <= t)%Z -> inject_Z t <= 255 * c -> in_unit (inject_Z t / c / 255).
Proof.
  intros Hc Ht Hle. assert (H0 : 0 <= inject_Z t) by (by rewrite Zle_Qle in Ht).
  split.
  - apply Qle_shift_div_l; [reflexivity |]. rewrite Qmult_0_l.
    apply Qle_shift_div_l; [exact Hc |]. by rewrite Qmult_0_l.
  - apply Qle_shift_div_r; [reflexivity |]. rewrite Qmult_1_l.
    by apply Qle_shift_div_r.
Qed.

Lemma slice_lengths (data : Uint8Array) :
  let n := length data in
  length (bass_slice data) = below (of_nat n * 0.15) /\
  length (mid_slice data) = (below (of_nat n * 0.5) - below (of_nat n * 0.15))%nat /\
  length (treble_slice data) = (n - below (of_nat n * 0.5))%nat.
Proof.
  cbn zeta. unfold bass_slice, mid_slice, treble_slice. rewrite !below_comm.
  destruct (below_bounds (length data)) as [Hab Hb].
  rewrite !length_drop, !length_take. lia.
Qed.

Lemma pow2_cases (k : nat) : (2 ^ k = 1 \/ exists m, 2 ^ k = 2 * m /\ 0 < m)%nat.
Proof.
  destruct k as [|k]; [by left | right].
  exists (2 ^ k)%nat. split; [by rewrite Nat.pow_succ_r' |].
  pose proof (Nat.pow_nonzero 2 k). lia.
Qed.

(** For an even number of bins, and for one bin, no slice is longer than
    the nominal width its sum is divided by. *)
Lemma nominal_widths (n : nat) :
  (n = 1 \/ exists m, n = 2 * m /\ 0 < m)%nat ->
  (20 * (below (of_nat n * 0.5) - below (of_nat n * 0.15)) <= 7 * n)%nat /\
  (2 * (n - below (of_nat n * 0.5)) <= n)%nat.
Proof.
  rewrite below_015, below_05.
  intros [-> | (m & -> & Hm)]; Z.div_mod_to_equations; lia.
Qed.

(** Inequalities between integers scaled by decimal constants, reduced to
    integer arithmetic. *)
Ltac q2z :=
  unfold Qle, Qlt, Qeq, Qmult, of_nat, inject_Z; cbn [Qnum Qden]; lia.

Lemma peak_ratio (p : Z) : (0 <= p <= 255)%Z -> in_unit (inject_Z p / 255).
Proof.
  intros Hp. split.
  - apply Qle_shift_div_l; [reflexivity | q2z].
  - apply Qle_shift_div_r; [reflexivity | q2z].
Qed.

Lemma snapshot_bounded (data time : Uint8Array) (k : nat) :
  length data = (2 ^ k)%nat -> bounded (snapshot data time).
Proof.
  intros Hlen. unfold bounded.
  destruct (snapshot_features data time) as (-> & -> & -> & ->).
  pose proof (pow2_cases k) as Hk. rewrite <- Hlen in Hk.
  destruct (nominal_widths _ Hk) as [Hmid Htreble].
  destruct (slice_lengths data) as (_ & Lm & Lt). cbn zeta in Lm, Lt.
  rewrite <- Lm in Hmid. rewrite <- Lt in Htreble.
  pose proof (total_range data) as Hv.
  pose proof (total_range (mid_slice data)) as Hm.
  pose proof (total_range (treble_slice data)) as Ht.
  assert (Hpos : (0 < length data)%nat) by (destruct Hk as [-> | (m & -> & ?)]; lia).
  repeat split.
  1, 2: apply unit_ratio; [q2z | lia | q2z].
  1, 2: apply peak_ratio, peak_range.
  1, 2: apply unit_ratio; [q2z | lia | q2z].
  1, 2: apply unit_ratio; [q2z | lia | q2z].
Qed.

(** The length matters: of 17 bins, the 6 at indices 3 to 8 are summed
    into [mid] while the nominal width is 5.95, so 17 bins at 255 give a
    [mid] above 1. *)
Lemma seventeen_bins_mid_above_one :
  length (mid_slice seventeen_bins) = 6%nat /\
  0.35 * of_nat (length seventeen_bins) == 5.95 /\
  1 < mid (snapshot seventeen_bins seventeen_bins).
Proof. by vm_compute. Qed.

(** C2, as worded, fails: with 128 bins, bin 19 is below [0.15 * 128 =
    19.2] and counts for [bass], but it is not among
    [bins[0 .. floor(19.2))]. *)
Lemma bass_floor_slice_counterexample :
  bass (snapshot spike_at_19 silence) == 1 /\
  inject_Z (peak (floor_slice spike_at_19)) / 255 == 0 /\
  ~ bass (snapshot spike_at_19 silence)
    == inject_Z (peak (floor_slice spike_at_19)) / 255.
Proof. by vm_compute. Qed.

Lemma peak_cons (d : byte) (l : Uint8Array) :
  peak (d :: l) = Z.max (byte_int d) (peak l).
Proof. reflexivity. Qed.

Lemma peak_zeros (n k : nat) : peak (take k (replicate n x00)) = 0%Z.
Proof.
  revert k. induction n as [|n IH]; intros [|k]; cbn [replicate take]; try done.
  by rewrite peak_cons, IH.
Qed.

(** C2, amended: [bass] is the maximum over the indices [i < 0.15 N], that
    is over [bins[0 .. ceil(0.15 N))], divided by 255; a lone spike at
    index 0 gives [spike / 255] whatever the length. *)
Theorem bass_is_peak_of_lowest_bins :
  (forall data time : Uint8Array,
     bass (snapshot data time) == inject_Z (peak (bass_slice data)) / 255 /\
     length (bass_slice data) = Z.to_nat (Qceiling (0.15 * of_nat (length data))) /\
     forall i : nat, (i < length (bass_slice data))%nat <-> of_nat i < 0.15 * of_nat (length data)) /\
  (forall (spike : byte) (n : nat) (time : Uint8Array),
     bass (snapshot (spike_at_0 spike n) time) == byte_val spike / 255).
Proof.
  split.
  - intros data time.
    destruct (snapshot_features data time) as (_ & -> & _).
    destruct (slice_lengths data) as (Lb & _). cbn zeta in Lb.
    rewrite <- below_comm in Lb.
    repeat apply conj; [done | done |].
    intros i. rewrite Lb. apply below_lt.
  - intros spike n time.
    destruct (snapshot_features (spike_at_0 spike n) time) as (_ & -> & _).
    unfold bass_slice, spike_at_0. cbn [length]. rewrite length_replicate.
    assert (Hk : (0 < below (0.15 * of_nat (S n)))%nat).
    { rewrite below_comm, below_015. Z.div_mod_to_equations. lia. }
    destruct (below (0.15 * of_nat (S n))) as [|k]; [lia |].
    cbn [take]. rewrite peak_cons, peak_zeros.
    pose proof (byte_int_range spike).
    rewrite Z.max_l by lia. reflexivity.
Qed.

(** C3: [mid] and [treble] are the sums over their slices divided by the
    nominal widths [0.35 N] and [0.5 N] and by 255, not by the number of
    bins summed; the mid slice is the bins at the indices [i] with
    [0.15 N <= i < 0.5 N], the treble slice those with [0.5 N <= i].
    With 128 bins the mid slice has 44 bins and the nominal width is
    44.8; with 3 bins the treble slice has 1 bin and the nominal width is
    1.5. *)
Theorem mid_treble_nominal_divisors :
  (forall data time : Uint8Array,
     let n := of_nat (length data) in
     let a := below (0.15 * n) in
     let b := below (0.5 * n) in
     mid (snapshot data time)
       == inject_Z (total (mid_slice data)) / (0.35 * n) / 255 /\
     treble (snapshot data time)
       == inject_Z (total (treble_slice data)) / (0.5 * n) / 255 /\
     mid_slice data = drop a (take b data) /\
     treble_slice data = drop b data /\
     (forall i : nat, (i < a)%nat <-> of_nat i < 0.15 * n) /\
     (forall i : nat, (i < b)%nat <-> of_nat i < 0.5 * n)) /\
  (length (mid_slice all_255) = 44%nat /\
   0.35 * of_nat (length all_255) == 44.8 /\
   ~ mid (snapshot all_255 silence)
     == inject_Z (total (mid_slice all_255))
        / of_nat (length (mid_slice all_255)) / 255) /\
  (length (treble_slice three_bins) = 1%nat /\
   0.5 * of_nat (length three_bins) == 1.5 /\
   ~ treble (snapshot three_bins silence)
     == inject_Z (total (treble_slice three_bins))
        / of_nat (length (treble_slice three_bins)) / 255).
Proof.
  split; [| by vm_compute].
  intros data time n a b.
  destruct (snapshot_features data time) as (_ & _ & -> & ->). fold n.
  rewrite (Qmult_comm 0.35 n), (Qmult_comm 0.5 n).
  repeat apply conj; try done; intros i; apply below_lt.
Qed.

(** C1, as worded, fails: 44 bins of 255 are summed into [mid] and the
    sum is divided by the nominal width 44.8. *)
Lemma all_255_mid_counterexample :
  mid (snapshot all_255 silence) == 55 # 56 /\
  ~ mid (snapshot all_255 silence) == 1.
Proof. by vm_compute. Qed.

Import Visualizers Frames.

(** C1, amended: for 128 bins all equal to 255 the features are volume 1,
    bass 1, mid 55/56 and treble 1; at sensitivity 1 the scaled bass is
    above 0.5 and above 0.8, and the frame of mode "pure" is the fade, the
    wash, the full-screen flash and the eight glitch lines. *)
Theorem all_255_scenario (time : Uint8Array) :
  volume (snapshot all_255 time) == 1 /\
  bass (snapshot all_255 time) == 1 /\
  mid (snapshot all_255 time) == 55 # 56 /\
  treble (snapshot all_255 time) == 1 /\
  gtb (Math_min 1 (bass (snapshot all_255 time) * 1)) 0.5 = true /\
  gtb (Math_min 1 (bass (snapshot all_255 time) * 1)) 0.8 = true /\
  forall (B : Browser) (canvas : Canvas) (particles : list Particle) (c : Cursor),
    render B (Some (snapshot all_255 time)) pure 1 canvas particles c
    = (particles,
       fade_and_wash canvas 0.1
         ++ flash B canvas (reads c) ++ glitch B canvas (draws c),
       mkCursor (8 + draws c) (1 + reads c)).
Proof.
  do 6 (split; [by vm_compute |]).
  intros B canvas particles c. unfold render.
  set (v := Math_min 1 (volume _ * 1)). vm_compute in v.
  set (b := Math_min 1 (bass _ * 1)). vm_compute in b. subst v b.
  reflexivity.
Qed.

(** ** The signal-strength indicator *)

(** C8, as worded, fails: one bin at 1 among 128 gives a volume of
    1/32640; the first segment is lit, and [floor(volume * 5)] is 0. *)
Lemma signal_floor_counterexample :
  App.segment_lit (snapshot faint silence) 0 = true /\
  Math_floor (volume (snapshot faint silence) * 5) = 0%Z /\
  ~ (App.segment_lit (snapshot faint silence) 0 = true
     <-> (Math_floor (volume (snapshot faint silence) * 5) > 0)%Z).
Proof.
  split; [by vm_compute |]. split; [by vm_compute |].
  intros [H _]. specialize (H eq_refl). vm_compute in H. discriminate.
Qed.

(** C8, amended: segment [i] is lit exactly when [volume * 5 > i], that
    is when [ceil(volume * 5) > i]. *)
Theorem signal_strength_segments (a : AudioData) :
  (forall i : nat, App.segment_lit a i = true <-> of_nat i < volume a * 5) /\
  (forall i : nat,
     App.segment_lit a i = true <-> (Qceiling (volume a * 5) > Z.of_nat i)%Z) /\
  App.signal_strength a
  = [App.segment_lit a 0; App.segment_lit a 1; App.segment_lit a 2;
     App.segment_lit a 3; App.segment_lit a 4].
Proof.
  split; [| split]; [ | | done].
  - intros i. apply ltb_lt.
  - intros i. unfold App.segment_lit, gtb. rewrite ltb_below. unfold below. lia.
Qed.

(** ** The particles of mode "cubic" *)

(** C10: the update adds the scaled velocity to the position whatever the
    result, the bounce only changes the sign of the velocity, and a
    particle inside the canvas can be outside after one update. *)
Theorem particle_update_can_leave_canvas :
  (forall (bass treble : number) (canvas : Canvas) (p : Particle),
     let p' := move_particle bass treble canvas p in
     x p' = x p + vx p * (1 + bass * 8) /\
     y p' = y p + vy p * (1 + bass * 8) /\
     vx p' = (if ltb (x p') 0 || gtb (x p') (width canvas) then vx p * -1 else vx p) /\
     vy p' = (if ltb (y p') 0 || gtb (y p') (height canvas) then vy p * -1 else vy p)) /\
  (let p' := move_particle 0 0 viewport leaving in
   (0 <= x leaving /\ x leaving <= width viewport) /\
   (0 <= y leaving /\ y leaving <= height viewport) /\
   x p' == -1 /\ y p' == -1 /\ x p' < 0 /\ y p' < 0 /\
   vx p' == 2 /\ vy p' == 2).
Proof.
  split; [done |]. by vm_compute.
Qed.

Lemma draw_particle_mid (bass mid mid' : number) (p : Particle) :
  draw_particle bass mid p = draw_particle bass mid' p.
Proof. reflexivity. Qed.

Lemma forEach_particle_mid (bass mid mid' treble : number) (canvas : Canvas)
  (particles : list Particle) :
  forEach_particle bass mid treble canvas particles
  = forEach_particle bass mid' treble canvas particles.
Proof.
  induction particles as [|p rest IH]; cbn [forEach_particle]; [done |].
  by rewrite IH.
Qed.

(** C9: in mode "cubic" a frame depends on the snapshot through [bass] and
    [treble] only: two snapshots that differ in [volume] and [mid] give
    the same particles, the same context operations and the same cursor. *)
Theorem cubic_ignores_volume_and_mid (B : Browser)
  (volume1 volume2 mid1 mid2 bass treble : number)
  (frequencyData timeData : Uint8Array)
  (sensitivity : number) (canvas : Canvas) (particles : list Particle) (c : Cursor) :
  render B (Some (mkAudioData volume1 bass mid1 treble frequencyData timeData))
         cubic sensitivity canvas particles c
  = render B (Some (mkAudioData volume2 bass mid2 treble frequencyData timeData))
           cubic sensitivity canvas particles c.
Proof.
  unfold render, render_cubic. cbn [Analyzer.bass Analyzer.mid Analyzer.treble].
  by rewrite (forEach_particle_mid _ (Math_min 1 (mid1 * sensitivity))
                                     (Math_min 1 (mid2 * sensitivity))).
Qed.

(** ** The particle set across effects and frames *)

Lemma Array_from_length {A} (n : nat) (f : M A) (c : Cursor) :
  length (Array_from n f c).1.1 = n.
Proof.
  revert c. induction n as [|n IH]; intros c; [done |].
  cbn [Array_from]. unfold mbind, M_bind.
  destruct (f c) as [[a ops] c']. specialize (IH c').
  destruct (Array_from n f c') as [[l ops'] c'']. cbn in *. by rewrite IH.
Qed.

(** The frame of mode "cubic" moves every particle and keeps them all. *)
Lemma forEach_particle_moves (bass mid treble : number) (canvas : Canvas)
  (particles : list Particle) (c : Cursor) :
  (forEach_particle bass mid treble canvas particles c).1.1
  = move_particle bass treble canvas <$> particles.
Proof.
  induction particles as [|p rest IH]; [done |].
  cbn [forEach_particle]. unfold mbind, M_bind.
  destruct (draw_particle _ _ _ c) as [[[] ops] c'] eqn:Hd.
  assert (c' = c) as -> by (by inversion Hd).
  destruct (forEach_particle bass mid treble canvas rest c) as [[l ops'] c''].
  cbn in *. by rewrite IH.
Qed.

(** A frame in another mode, or without a snapshot, leaves the particles
    as they are. *)
Lemma render_keeps_particles (B : Browser) (a : option AudioData) (m : Mode)
  (s : number) (canvas : Canvas) (particles : list Particle) (c : Cursor) :
  a = None \/ m <> cubic ->
  (render B a m s canvas particles c).1.1 = particles.
Proof.
  intros H. unfold render. destruct a as [a|]; [| done].
  destruct H as [H | H]; [done |].
  destruct m; [| done |]; unfold mbind, M_bind.
  - by destruct (render_pure _ _ _ _ _) as [[[] ops] c'].
  - by destruct (render_waves _ _ _ _ _ _) as [[[] ops] c'].
Qed.

Lemma render_length (B : Browser) (a : option AudioData) (m : Mode)
  (s : number) (canvas : Canvas) (particles : list Particle) (c : Cursor) :
  length (render B a m s canvas particles c).1.1 = length particles.
Proof.
  destruct a as [a|]; [| by rewrite render_keeps_particles; [| left]].
  destruct m; [by rewrite render_keeps_particles; [| right] | |
               by rewrite render_keeps_particles; [| right]].
  unfold render, render_cubic, mbind, M_bind. cbn.
  pose proof (forEach_particle_moves
    (Math_min 1 (bass a * s)) (Math_min 1 (mid a * s)) (Math_min 1 (treble a * s))
    canvas particles c) as Hm.
  destruct (forEach_particle _ _ _ _ _ _) as [[l ops] c']. cbn in *.
  by rewrite Hm, length_fmap.
Qed.

(** The initialisation does nothing to a set that is not empty, and
    nothing in another mode. *)
Lemma init_particles_keeps (B : Browser) (m : Mode) (canvas : Canvas)
  (particles : list Particle) (c : Cursor) :
  particles <> [] \/ m <> cubic ->
  init_particles B m canvas particles c = (particles, [], c).
Proof.
  intros H. unfold init_particles.
  destruct m, particles as [|p rest]; try reflexivity.
  by destruct H.
Qed.

Lemma init_particles_length (B : Browser) (m : Mode) (canvas : Canvas)
  (particles : list Particle) (c : Cursor) :
  length (init_particles B m canvas particles c).1.1
  = match m, particles with cubic, [] => 45%nat | _, _ => length particles end.
Proof.
  destruct m, particles as [|p rest];
    [reflexivity | reflexivity | apply Array_from_length
     | reflexivity | reflexivity | reflexivity].
Qed.

Lemma step_particle_count (B : Browser) (comp : Component) (e : Event) (c : Cursor) :
  particlesRef comp <> [] ->
  length (particlesRef (step B comp e c).1.1) = length (particlesRef comp).
Proof.
  intros Hne. destruct e as [has_canvas window props | | window |]; cbn [step].
  - unfold effect. destruct has_canvas; [| done].
    unfold mbind, M_bind.
    rewrite init_particles_keeps by (by left).
    pose proof (render_length B (audioData props) (mode props) (sensitivity props)
                  window (particlesRef comp) c) as Hr.
    by destruct (render _ _ _ _ _ _ _) as [[l ops] c'].
  - destruct (scheduled comp) as [props|]; [| done].
    unfold mbind, M_bind.
    pose proof (render_length B (audioData props) (mode props) (sensitivity props)
                  (canvas comp) (particlesRef comp) c) as Hr.
    by destruct (render _ _ _ _ _ _ _) as [[l ops] c'].
  - by destruct (scheduled comp).
  - done.
Qed.

Lemma run_particle_count (B : Browser) (es : list Event) (comp : Component) (c : Cursor) :
  particlesRef comp <> [] ->
  length (particlesRef (run B comp es c).1.1) = length (particlesRef comp).
Proof.
  revert comp c. induction es as [|e es IH]; intros comp c Hne; [done |].
  cbn [run]. unfold mbind, M_bind.
  pose proof (step_particle_count B comp e c Hne) as Hs.
  destruct (step B comp e c) as [[comp' ops] c'].
  assert (Hne' : particlesRef comp' <> []).
  { cbn in Hs. intros Heq. rewrite Heq in Hs. destruct (particlesRef comp); [done | discriminate]. }
  specialize (IH comp' c' Hne').
  destruct (run B comp' es c') as [[comp'' ops'] c'']. cbn in *. congruence.
Qed.

Lemma effect_particles (B : Browser) (window : Canvas) (props : VisualizerProps)
  (comp : Component) (c : Cursor) :
  particlesRef comp <> [] \/ mode props <> cubic ->
  particlesRef (effect B true window props comp c).1.1
  = (render B (audioData props) (mode props) (sensitivity props) window
            (particlesRef comp) c).1.1.
Proof.
  intros H. unfold effect, mbind, M_bind.
  rewrite init_particles_keeps by done.
  by destruct (render _ _ _ _ _ _ _) as [[l ops] c'].
Qed.

(** C7: the particle set is created, 45 strong, by the effect that finds
    it empty in mode "cubic" and by no other; no event changes the count
    afterwards; an effect in another mode leaves the set as it is, and
    the next effect in mode "cubic" renders that same set. *)
Theorem particle_set_initialised_once (B : Browser) :
  (forall (canvas : Canvas) (c : Cursor),
     length (init_particles B cubic canvas [] c).1.1 = 45%nat) /\
  (forall (m : Mode) (canvas : Canvas) (particles : list Particle) (c : Cursor),
     particles <> [] \/ m <> cubic ->
     init_particles B m canvas particles c = (particles, [], c)) /\
  (forall (window : Canvas) (props : VisualizerProps) (c : Cursor),
     mode props = cubic ->
     length (particlesRef (step B mount (Effect true window props) c).1.1) = 45%nat) /\
  (forall (comp : Component) (es : list Event) (c : Cursor),
     length (particlesRef comp) = 45%nat ->
     length (particlesRef (run B comp es c).1.1) = 45%nat) /\
  (forall (comp : Component) (window : Canvas) (props : VisualizerProps) (c : Cursor),
     mode props <> cubic ->
     particlesRef (step B comp (Effect true window props) c).1.1 = particlesRef comp) /\
  (forall (comp : Component) (window : Canvas) (props : VisualizerProps) (c : Cursor),
     mode props = cubic ->
     particlesRef comp <> [] ->
     particlesRef (step B comp (Effect true window props) c).1.1
     = match audioData props with
       | None => particlesRef comp
       | Some a =>
           move_particle (Math_min 1 (bass a * sensitivity props))
                         (Math_min 1 (treble a * sensitivity props)) window
             <$> particlesRef comp
       end).
Proof.
  repeat apply conj.
  - intros canvas c. apply (init_particles_length B cubic canvas []).
  - apply init_particles_keeps.
  - intros window props c Hm. cbn [step]. unfold effect, mount, mbind, M_bind.
    cbn [particlesRef]. rewrite Hm.
    pose proof (init_particles_length B cubic window [] c) as Hi.
    destruct (init_particles B cubic window [] c) as [[l ops] c'].
    pose proof (render_length B (audioData props) cubic (sensitivity props)
                  window l c') as Hr.
    destruct (render _ _ _ _ _ _ _) as [[l' ops'] c'']. cbn in *. congruence.
  - intros comp es c H45. rewrite run_particle_count; [done |].
    intros Heq. by rewrite Heq in H45.
  - intros comp window props c Hm. cbn [step].
    rewrite effect_particles by (by right).
    apply render_keeps_particles. by right.
  - intros comp window props c Hm Hne. cbn [step].
    rewrite effect_particles by (by left). rewrite Hm.
    destruct (audioData props) as [a|]; [| done].
    unfold render, render_cubic, mbind, M_bind. cbn.
    pose proof (forEach_particle_moves
      (Math_min 1 (bass a * sensitivity props)) (Math_min 1 (mid a * sensitivity props))
      (Math_min 1 (treble a * sensitivity props)) window (particlesRef comp) c) as Hmv.
    by destruct (forEach_particle _ _ _ _ _ _) as [[l ops] c'].
Qed.

(** ** Activation and deactivation *)

Lemma stop_idle_hook (p : Platform) : stop (initial_hook, p) = (initial_hook, p).
Proof. by destruct p. Qed.

Lemma update_idle_hook (freq time : Uint8Array) (p : Platform) :
  update freq time (initial_hook, p) = (initial_hook, p).
Proof. done. Qed.

(** Short of a new call of [start], nothing takes the hook out of the
    idle state. *)
Lemma step_idle (st : State) (e : Analyzer.Event) :
  e <> CallStart -> idle st -> idle (Analyzer.step st e).
Proof.
  destruct st as [h p]. intros He [Hh Hp]. cbn in Hh, Hp. subst h.
  destruct e as [| o | | id freq time]; cbn [Analyzer.step]; [done | | |].
  - unfold start_resume. by rewrite Hp.
  - by rewrite stop_idle_hook.
  - unfold animation_frame. case_decide; [| done].
    by rewrite update_idle_hook.
Qed.

Lemma run_idle (es : list Analyzer.Event) (st : State) :
  CallStart ∉ es -> idle st -> idle (Analyzer.run st es).
Proof.
  revert st. induction es as [|e es IH]; intros st Hes Hst; [done |].
  cbn. apply IH; [set_solver |]. apply step_idle; [set_solver | done].
Qed.

(** C6: [stop] twice is [stop] once; after it every ref and the published
    snapshot are null, the frame request is cancelled, the context closed
    and the stream stopped; on a hook that holds nothing it changes
    nothing.  It is a total function: no path of it throws. *)
Theorem stop_idempotent (st : State) :
  stop (stop st) = stop st /\
  (stop st).1 = mkHook None None None None None None None /\
  (forall id, animationFrameRef st.1 = Some id -> id ∉ frame_requests (stop st).2) /\
  (forall c, audioContextRef st.1 = Some c ->
             context_id c ∉ running_contexts (stop st).2) /\
  (forall src, sourceRef st.1 = Some src ->
               mediaStream src ∉ live_streams (stop st).2) /\
  stop initial = initial /\
  (forall p : Platform, stop (initial_hook, p) = (initial_hook, p)).
Proof.
  destruct st as [h p]. cbn [fst snd]. repeat apply conj; try done.
  - intros id Hid. cbn. rewrite Hid. apply not_elem_of_difference. right. by apply elem_of_singleton.
  - intros c Hc. cbn. rewrite Hc. apply not_elem_of_difference. right. by apply elem_of_singleton.
  - intros src Hsrc. cbn. rewrite Hsrc. apply not_elem_of_difference. right. by apply elem_of_singleton.
  - apply stop_idle_hook.
Qed.

(** C5: when [getUserMedia] rejects, the error thrown in the [try] block
    of [start] is caught and [start] ends in its [catch] block: the refs and the published snapshot are as before the call, no
    stream, context or frame request has been added, the error is on the
    console; from a hook that held nothing, [stop] then changes nothing,
    and no snapshot is published by whatever follows short of a new call
    of [start]. *)
Theorem denied_activation_leaves_no_session (st : State) (err : MediaError) :
  audioContextRef st.1 = None ->
  let st' := start_resume (Rejects err) (start_call st) in
  try_block (Rejects err) st = inl err /\
  st' = catch_block err st /\
  st'.1 = st.1 /\
  pending_requests st'.2 = pending_requests st.2 /\
  live_streams st'.2 = live_streams st.2 /\
  running_contexts st'.2 = running_contexts st.2 /\
  frame_requests st'.2 = frame_requests st.2 /\
  console st'.2 = console st.2 ++ [console_error "Error accessing microphone:" err] /\
  (st.1 = initial_hook -> stop st' = st') /\
  (idle st ->
   forall es : list Analyzer.Event,
     CallStart ∉ es ->
     (Analyzer.run st' es).1 = initial_hook /\
     Analyzer.audioData (Analyzer.run st' es).1 = None).
Proof.
  destruct st as [h p]. cbn [fst snd]. intros Hctx.
  unfold start_call. rewrite Hctx. cbn.
  repeat apply conj; try done.
  - by intros ->.
  - intros [Hh Hp] es Hes. cbn in Hh, Hp.
    match goal with |- context [Analyzer.run ?s es] => assert (Hi : idle s) by done end.
    destruct (run_idle es _ Hes Hi) as [Hr _]. by rewrite Hr.
Qed.

Lemma denied_activation_witness :
  let st' := start_resume (Rejects NotAllowedError) (start_call initial) in
  st'.1 = initial_hook /\ stop st' = st' /\
  Analyzer.audioData
    (Analyzer.run st' [AnimationFrame 1 all_255 silence; CallStop]).1 = None.
Proof.
  pose proof (denied_activation_leaves_no_session initial NotAllowedError eq_refl)
    as (_ & _ & H1 & _ & _ & _ & _ & _ & H2 & H3).
  split; [exact H1 |]. split; [exact (H2 eq_refl) |].
  refine (proj2 (H3 (conj eq_refl eq_refl) _ _)).
  vm_compute. intros H. repeat (apply elem_of_cons in H as [H | H]; [discriminate |]).
  by apply elem_of_nil in H.
Defined.

(** ** Every published snapshot *)

Lemma fill_length (src dst : Uint8Array) : length (fill src dst) = length dst.
Proof. unfold fill. rewrite length_app, length_take, length_drop. lia. Qed.

(** The sample buffer has 128 bins, and so has the published snapshot,
    which is within range. *)
Definition session_inv (st : State) : Prop :=
  (forall d, dataArrayRef st.1 = Some d -> length d = 128%nat) /\
  (forall a, Analyzer.audioData st.1 = Some a ->
             length (frequencyData a) = 128%nat /\ bounded a).

Lemma update_inv (freq time : Uint8Array) (st : State) :
  session_inv st -> session_inv (update freq time st).
Proof.
  destruct st as [h p]. intros Hst. unfold update.
  destruct (analyzerRef h) eqn:Han; [| done].
  destruct (dataArrayRef h) as [d|] eqn:Hda; [| done].
  destruct (timeArrayRef h) as [td|] eqn:Hta; [| done].
  destruct Hst as [Hd _]. specialize (Hd d Hda).
  split; cbn [fst dataArrayRef Analyzer.audioData].
  - intros d' [= <-]. by rewrite fill_length.
  - intros sn [= <-]. cbn [frequencyData snapshot]. rewrite fill_length.
    split; [done |]. apply (snapshot_bounded _ _ 7%nat). by rewrite fill_length.
Qed.

Lemma step_inv (st : State) (e : Analyzer.Event) :
  session_inv st -> session_inv (Analyzer.step st e).
Proof.
  destruct st as [h p]. intros Hst.
  destruct e as [| [err | freq time] | | id freq time]; cbn [Analyzer.step].
  - unfold start_call. by destruct (audioContextRef h).
  - unfold start_resume. by destruct (pending_requests p).
  - unfold start_resume. destruct (pending_requests p) as [|n]; [done |].
    cbn [try_block]. apply update_inv. destruct Hst as [_ Ha].
    split; [by intros d [= <-] | exact Ha].
  - done.
  - unfold animation_frame. case_decide; [| done]. by apply update_inv.
Qed.

Lemma run_inv (es : list Analyzer.Event) (st : State) :
  session_inv st -> session_inv (Analyzer.run st es).
Proof.
  revert st. induction es as [|e es IH]; intros st Hst; [done |].
  cbn. by apply IH, step_inv.
Qed.

(** C4: for a buffer whose length is a power of two the four published
    features lie in [0, 1]; and whatever happens to the hook, the snapshot
    it publishes has 128 bins and its four features lie in [0, 1]. *)
Theorem features_in_unit_range :
  (forall (data time : Uint8Array) (k : nat),
     length data = (2 ^ k)%nat ->
     in_unit (volume (snapshot data time)) /\
     in_unit (bass (snapshot data time)) /\
     in_unit (mid (snapshot data time)) /\
     in_unit (treble (snapshot data time))) /\
  (forall (es : list Analyzer.Event) (a : AudioData),
     Analyzer.audioData (Analyzer.run initial es).1 = Some a ->
     length (frequencyData a) = 128%nat /\
     in_unit (volume a) /\ in_unit (bass a) /\ in_unit (mid a) /\ in_unit (treble a)).
Proof.
  split.
  - intros data time k Hlen. by apply (snapshot_bounded data time k).
  - intros es a Ha.
    assert (Hinit : session_inv initial) by (by split).
    destruct (run_inv es initial Hinit) as [_ Hpub]. by apply Hpub.
Qed.

Lemma features_in_unit_range_witness :
  length all_255 = (2 ^ 7)%nat /\
  in_unit (volume (snapshot all_255 silence)) /\
  in_unit (bass (snapshot all_255 silence)) /\
  in_unit (mid (snapshot all_255 silence)) /\
  in_unit (treble (snapshot all_255 silence)).
Proof.
  split; [reflexivity |].
  apply (proj1 features_in_unit_range all_255 silence 7%nat). reflexivity.
Defined.

(** ** The scenarios in binary64 *)

(** With 128 bins at 255 the browser computes [mid] as the double nearest
    to 55/56, and the other three features as 1. *)
Lemma all_255_binary64 :
  Binary64.features all_255
  = Binary64.mkFeatures Binary64.one Binary64.one Binary64.nearest_55_56 Binary64.one /\
  PrimFloat.eqb Binary64.nearest_55_56 Binary64.one = false.
Proof. by vm_compute. Qed.

(** With 128 bins the browser counts bin 19 for [bass]. *)
Lemma spike_at_19_binary64 :
  Binary64.bass (Binary64.features spike_at_19) = Binary64.one.
Proof. by vm_compute. Qed.

(** * Further properties of the code *)

Import Behaviour.

(** ** The extractor *)


Lemma zeros_total_peak (l : Uint8Array) :
  Forall (eq x00) l -> total l = 0%Z /\ peak l = 0%Z.
Proof.
  unfold total, peak. induction 1 as [|d l <- _ [IHt IHp]]; [done |].
  cbn. by rewrite IHt, IHp.
Qed.

Lemma zero_ratio (c : number) : inject_Z 0 / c / 255 == 0.
Proof. unfold Qdiv. by rewrite !Qmult_0_l. Qed.

Lemma Math_min_le_r (a b : number) : Math_min a b <= b.
Proof.
  unfold Math_min. destruct (ltb b a) eqn:H; [apply Qle_refl |].
  apply Qnot_lt_le. intros Hlt. apply ltb_lt in Hlt. congruence.
Qed.

Lemma Math_min_le_l (a b : number) : Math_min a b <= a.
Proof.
  unfold Math_min. destruct (ltb b a) eqn:H; [| apply Qle_refl].
  apply Qlt_le_weak. by apply ltb_lt.
Qed.

(** X2: a buffer of zeros, whatever its length, gives four features equal
    to 0, and then no sensitivity makes mode "pure" flash. *)
Theorem silent_buffer_features (n : nat) (time : Uint8Array) :
  let a := snapshot (replicate (S n) x00) time in
  volume a == 0 /\ bass a == 0 /\ mid a == 0 /\ treble a == 0 /\
  forall s : number, gtb (Math_min 1 (bass a * s)) 0.5 = false.
Proof.
  cbn zeta. set (data := replicate (S n) x00).
  assert (Hz : Forall (eq x00) data) by (apply Forall_replicate; done).
  destruct (snapshot_features data time) as (Hv & Hb & Hm & Ht).
  destruct (zeros_total_peak data Hz) as [T0 _].
  destruct (zeros_total_peak (bass_slice data)) as [_ P0];
    [by apply Forall_take |].
  destruct (zeros_total_peak (mid_slice data)) as [M0 _];
    [by apply Forall_drop, Forall_take |].
  destruct (zeros_total_peak (treble_slice data)) as [R0 _];
    [by apply Forall_drop |].
  rewrite T0 in Hv. rewrite P0 in Hb. rewrite M0 in Hm. rewrite R0 in Ht.
  assert (Hb0 : bass (snapshot data time) == 0) by (by rewrite Hb).
  repeat apply conj.
  - rewrite Hv. apply zero_ratio.
  - exact Hb0.
  - rewrite Hm. apply zero_ratio.
  - rewrite Ht. apply zero_ratio.
  - intros s. apply not_true_iff_false. unfold gtb. rewrite ltb_lt. intros Hlt.
    pose proof (Math_min_le_r 1 (bass (snapshot data time) * s)) as Hle.
    assert (H0 : bass (snapshot data time) * s == 0) by (by rewrite Hb0, Qmult_0_l).
    apply (Qlt_irrefl 0.5).
    eapply Qlt_le_trans; [exact Hlt |]. eapply Qle_trans; [exact Hle |].
    rewrite H0. done.
Qed.

Lemma peak_ge (l : Uint8Array) (d : byte) : d ∈ l -> (byte_int d <= peak l)%Z.
Proof.
  induction 1 as [d l | d d' l _ IH]; rewrite peak_cons; lia.
Qed.

Lemma peak_attained (l : Uint8Array) :
  l <> [] -> exists d, d ∈ l /\ peak l = byte_int d.
Proof.
  induction l as [|d l IH]; [done | intros _]. rewrite peak_cons.
  destruct l as [|d' l'].
  - exists d. split; [left |]. pose proof (byte_int_range d). cbn. lia.
  - destruct IH as (e & He & Hpe); [done |].
    destruct (Z.max_spec (byte_int d) (peak (d' :: l'))) as [[_ ->] | [_ ->]].
    + exists e. split; [by right | done].
    + exists d. split; [left | done].
Qed.

Lemma ratio_255_le (a b : Z) : (a <= b)%Z -> inject_Z a / 255 <= inject_Z b / 255.
Proof.
  intros H. unfold Qdiv. apply Qmult_le_compat_r; [by rewrite <- Zle_Qle | done].
Qed.

(** X3: [bass] is at least every bin of the lowest band over 255, and it
    is one of them: a transient in any single bin of the band sets it. *)
Theorem bass_dominates_its_bins (data time : Uint8Array) :
  (forall d : byte,
     d ∈ bass_slice data -> byte_val d / 255 <= bass (snapshot data time)) /\
  (bass_slice data <> [] ->
   exists d : byte,
     d ∈ bass_slice data /\ bass (snapshot data time) == byte_val d / 255).
Proof.
  destruct (snapshot_features data time) as (_ & -> & _). split.
  - intros d Hd. rewrite byte_val_int. by apply ratio_255_le, peak_ge.
  - intros Hne. destruct (peak_attained _ Hne) as (d & Hd & ->).
    exists d. by rewrite byte_val_int.
Qed.


(** ** Sensitivity and thresholds *)

Lemma Math_min_1_in_unit (q : number) : 0 <= q -> in_unit (Math_min 1 q).
Proof.
  intros Hq. split; [| apply Math_min_le_l].
  unfold Math_min. by destruct (ltb q 1).
Qed.

Lemma Math_min_1_saturates (q : number) : 1 <= q -> Math_min 1 q = 1.
Proof.
  intros Hq. unfold Math_min. destruct (ltb q 1) eqn:H; [| done].
  apply ltb_lt in H. lra.
Qed.

Lemma Math_min_mono (a b b' : number) : b <= b' -> Math_min a b <= Math_min a b'.
Proof.
  intros Hb. unfold Math_min.
  destruct (ltb b a) eqn:H, (ltb b' a) eqn:H'; try apply Qle_refl; try done.
  - apply Qlt_le_weak. by apply ltb_lt.
  - apply ltb_lt in H'. apply not_true_iff_false in H. rewrite ltb_lt in H. lra.
Qed.

(** X4: whatever has happened to the hook, the features the renderer
    derives from the published snapshot with a sensitivity that is not
    negative lie in [0, 1], and a feature reaches 1 as soon as its product
    with the sensitivity does. *)
Theorem published_scaled_features_in_unit
  (es : list Analyzer.Event) (a : AudioData) (s : number) :
  Analyzer.audioData (Analyzer.run initial es).1 = Some a ->
  0 <= s ->
  in_unit (Math_min 1 (volume a * s)) /\
  in_unit (Math_min 1 (bass a * s)) /\
  in_unit (Math_min 1 (mid a * s)) /\
  in_unit (Math_min 1 (treble a * s)) /\
  (forall q : number, 1 <= q -> Math_min 1 q = 1).
Proof.
  intros Ha Hs.
  assert (Hinit : session_inv initial) by (by split).
  destruct (run_inv es initial Hinit) as [_ Hpub].
  destruct (Hpub a Ha) as (_ & [Hv _] & [Hb _] & [Hm _] & [Ht _]).
  repeat apply conj; try apply Math_min_1_in_unit;
    try (by apply Qmult_le_0_compat).
  apply Math_min_1_saturates.
Qed.

Lemma published_scaled_features_witness :
  in_unit (Math_min 1 (mid (snapshot all_255 silence) * 3)).
Proof.
  refine (proj1 (proj2 (proj2
    (published_scaled_features_in_unit
       [CallStart; MediaSettled (Resolves all_255 silence)]
       (snapshot all_255 silence) 3 _ _)))).
  - reflexivity.
  - discriminate.
Defined.

(** X5: a higher sensitivity never lowers a scaled feature, so a frame
    that passes a threshold still passes it at any higher sensitivity. *)
Theorem higher_sensitivity_never_dims (r s s' t : number) :
  0 <= r ->
  s <= s' ->
  Math_min 1 (r * s) <= Math_min 1 (r * s') /\
  (gtb (Math_min 1 (r * s)) t = true -> gtb (Math_min 1 (r * s')) t = true).
Proof.
  intros Hr Hs.
  assert (Hle : Math_min 1 (r * s) <= Math_min 1 (r * s')).
  { apply Math_min_mono. rewrite !(Qmult_comm r). by apply Qmult_le_compat_r. }
  split; [exact Hle |]. unfold gtb. rewrite !ltb_lt. intros Ht.
  eapply Qlt_le_trans; [exact Ht | exact Hle].
Qed.

Lemma higher_sensitivity_witness :
  Math_min 1 (0.4 * 1) <= Math_min 1 (0.4 * 2) /\
  (gtb (Math_min 1 (0.4 * 1)) 0.5 = true -> gtb (Math_min 1 (0.4 * 2)) 0.5 = true).
Proof.
  apply (higher_sensitivity_never_dims 0.4 1 2 0.5); discriminate.
Defined.

(** X6: a frame of mode "pure" is the fade and the wash alone while the
    scaled bass is at most 0.5 (no clock reading, no random number); the
    flash follows them above 0.5 (one clock reading); above 0.8 the eight
    glitch lines follow the flash (eight random numbers).  The particles
    are not touched. *)
Theorem pure_frame_by_threshold (B : Browser) (a : AudioData) (s : number)
  (canvas : Canvas) (particles : list Particle) (c : Cursor) :
  let volume := Math_min 1 (volume a * s) in
  let bass := Math_min 1 (bass a * s) in
  render B (Some a) pure s canvas particles c
  = if gtb bass 0.8 then
      (particles,
       fade_and_wash canvas (volume * 0.1)
         ++ flash B canvas (reads c) ++ glitch B canvas (draws c),
       mkCursor (8 + draws c) (1 + reads c))
    else if gtb bass 0.5 then
      (particles,
       fade_and_wash canvas (volume * 0.1) ++ flash B canvas (reads c),
       mkCursor (draws c) (1 + reads c))
    else (particles, fade_and_wash canvas (volume * 0.1), c).
Proof.
  cbn zeta. unfold render, render_pure.
  set (v := Math_min 1 (volume a * s)). set (b := Math_min 1 (bass a * s)).
  destruct (gtb b 0.8) eqn:H8.
  - assert (H5 : gtb b 0.5 = true).
    { unfold gtb in *. rewrite ltb_lt in *. lra. }
    rewrite H5. reflexivity.
  - by destruct (gtb b 0.5).
Qed.

(** ** The hue of the flash *)

(** The remainder the flash takes, in integers: [now / 5 % 360] is
    [(now mod 1800) / 5]. *)
Lemma flash_hue_value (now : Z) :
  rem (inject_Z now / 5) 360 == inject_Z (Z.rem now 1800) / 5.
Proof.
  pose proof (Z.quot_rem' now 1800) as H.
  cbv -[Z.mul Z.add Z.quot Z.rem Z.opp]. rewrite !Z.mul_1_r. lia.
Qed.



(** ** Frames of mode "cubic" *)

Lemma forEach_particle_frame (bass mid treble : number) (canvas : Canvas)
  (particles : list Particle) (c : Cursor) :
  forEach_particle bass mid treble canvas particles c
  = (move_particle bass treble canvas <$> particles,
     concat (particle_ops bass <$> (move_particle bass treble canvas <$> particles)),
     c).
Proof.
  induction particles as [|p rest IH]; [done |].
  cbn [forEach_particle]. unfold mbind, M_bind.
  change (draw_particle bass mid (move_particle bass treble canvas p) c)
    with (tt, particle_ops bass (move_particle bass treble canvas p), c).
  cbn iota. rewrite IH. cbn [fmap list_fmap concat].
  unfold ret, mret, M_ret. by rewrite app_nil_r.
Qed.

Lemma particle_ops_length (bass : number) (l : list Particle) :
  length (concat (particle_ops bass <$> l)) = (13 * length l)%nat.
Proof.
  induction l as [|p rest IH]; [done |].
  cbn [fmap list_fmap concat]. rewrite length_app, IH.
  change (length (particle_ops bass p)) with 13%nat. cbn [length]. lia.
Qed.

(** X8: a frame of mode "cubic" moves every particle, then draws the fade
    and, particle by particle in order, the thirteen operations of each
    particle as moved; it reads no clock and draws no random number. *)
Theorem cubic_frame (B : Browser) (a : AudioData) (s : number)
  (canvas : Canvas) (particles : list Particle) (c : Cursor) :
  let bass := Math_min 1 (bass a * s) in
  let treble := Math_min 1 (treble a * s) in
  let moved := move_particle bass treble canvas <$> particles in
  let ops := [set_fillStyle (rgba 0 0 0 0.2);
              fillRect 0 0 (width canvas) (height canvas)]
             ++ concat (particle_ops bass <$> moved) in
  render B (Some a) cubic s canvas particles c = (moved, ops, c) /\
  length ops = (2 + 13 * length particles)%nat.
Proof.
  cbn zeta. split.
  - unfold render, render_cubic, mbind, M_bind, fill_canvas, ctx.
    by rewrite forEach_particle_frame.
  - cbn [app length]. by rewrite particle_ops_length, length_fmap.
Qed.

Lemma conserved_refl (p : Particle) : conserved p p.
Proof. by repeat split. Qed.

Lemma conserved_trans (p q r : Particle) :
  conserved p q -> conserved q r -> conserved p r.
Proof.
  intros (S1 & C1 & R1 & X1 & Y1) (S2 & C2 & R2 & X2 & Y2).
  repeat split; try congruence.
  - by rewrite X2.
  - by rewrite Y2.
Qed.

Lemma Qabs_flip (v : number) : Qabs (v * -1) == Qabs v.
Proof. rewrite Qabs_Qmult. change (Qabs (-1)) with 1. apply Qmult_1_r. Qed.

Lemma move_particle_conserved (bass treble : number) (canvas : Canvas) (p : Particle) :
  conserved p (move_particle bass treble canvas p).
Proof.
  unfold conserved, move_particle. cbn [size color rv vx vy].
  repeat split.
  - destruct (_ || _); [apply Qabs_flip | done].
  - destruct (_ || _); [apply Qabs_flip | done].
Qed.

Lemma render_particles (B : Browser) (a : option AudioData) (m : Mode)
  (s : number) (canvas : Canvas) (particles : list Particle) (c : Cursor) :
  Forall2 conserved particles (render B a m s canvas particles c).1.1.
Proof.
  assert (Hsame : Forall2 conserved particles particles).
  { apply Forall_Forall2_diag, Forall_forall. intros. apply conserved_refl. }
  destruct a as [a|]; [| by rewrite render_keeps_particles; [| left]].
  destruct m; [by rewrite render_keeps_particles; [| right] | |
               by rewrite render_keeps_particles; [| right]].
  unfold render, render_cubic, mbind, M_bind, fill_canvas, ctx.
  rewrite forEach_particle_frame. cbn [fst].
  apply Forall2_fmap_r, Forall_Forall2_diag, Forall_forall.
  intros. apply move_particle_conserved.
Qed.

Lemma step_conserved (B : Browser) (comp : Component) (e : Event) (c : Cursor) :
  particlesRef comp <> [] ->
  Forall2 conserved (particlesRef comp) (particlesRef (step B comp e c).1.1).
Proof.
  intros Hne.
  assert (Hsame : Forall2 conserved (particlesRef comp) (particlesRef comp)).
  { apply Forall_Forall2_diag, Forall_forall. intros. apply conserved_refl. }
  destruct e as [has_canvas window props | | window |]; cbn [step].
  - destruct has_canvas; [| done].
    rewrite effect_particles by (by left). apply render_particles.
  - destruct (scheduled comp) as [props|]; [| done].
    unfold mbind, M_bind.
    pose proof (render_particles B (audioData props) (mode props) (sensitivity props)
                  (canvas comp) (particlesRef comp) c) as Hr.
    by destruct (render _ _ _ _ _ _ _) as [[l ops] c'].
  - by destruct (scheduled comp).
  - done.
Qed.

(** X9: once the particle set exists, no sequence of effects, frames,
    resizes and cleanups changes the number of particles, nor the size,
    the colour, the spin or the speed along either axis of any of them:
    the bounce reverses a velocity and never scales it. *)
Theorem particles_conserved (B : Browser) (comp : Component) (es : list Event)
  (c : Cursor) :
  particlesRef comp <> [] ->
  Forall2 conserved (particlesRef comp) (particlesRef (run B comp es c).1.1).
Proof.
  revert comp c. induction es as [|e es IH]; intros comp c Hne.
  - apply Forall_Forall2_diag, Forall_forall. intros. apply conserved_refl.
  - cbn [run]. unfold mbind, M_bind.
    pose proof (step_conserved B comp e c Hne) as Hs.
    destruct (step B comp e c) as [[comp' ops] c']. cbn [fst] in Hs.
    assert (Hne' : particlesRef comp' <> []).
    { intros Heq. rewrite Heq in Hs. apply Forall2_nil_inv_r in Hs. done. }
    specialize (IH comp' c' Hne').
    destruct (run B comp' es c') as [[comp'' ops'] c'']. cbn [fst] in *.
    eapply Forall2_trans; [| exact Hs | exact IH].
    intros p q r. apply conserved_trans.
Qed.

Lemma particles_conserved_witness :
  Forall2 conserved [leaving]
    (particlesRef
       (run still (mkComponent [leaving] viewport None)
          [Effect true viewport (mkProps (Some (snapshot all_255 silence)) cubic 1);
           Frame; Frame] origin).1.1).
Proof.
  apply (particles_conserved still (mkComponent [leaving] viewport None)).
  discriminate.
Defined.

(** ** A particle past an edge *)

Lemma ltb_proper (x x' y y' : number) : x == x' -> y == y' -> ltb x y = ltb x' y'.
Proof.
  intros Hx Hy. apply eq_true_iff_eq. rewrite !ltb_lt. by rewrite Hx, Hy.
Qed.

Lemma outside_true (q w : number) : q < 0 \/ w < q -> ltb q 0 || gtb q w = true.
Proof.
  intros [H | H]; apply orb_true_iff; [left | right]; by apply ltb_lt.
Qed.

Lemma outside_false (q w : number) : 0 <= q /\ q <= w -> ltb q 0 || gtb q w = false.
Proof.
  intros [H0 Hw]. apply orb_false_iff.
  split; apply not_true_iff_false; unfold gtb; rewrite ltb_lt; lra.
Qed.



(** ** The particles as created *)

Lemma hue_index (r : number) :
  0 <= r -> r < 1 ->
  exists hue : Z,
    hue ∈ modernHues /\
    array_get modernHues (Math_floor (r * of_nat (length modernHues))) = Some hue.
Proof.
  intros H0 H1. unfold Math_floor.
  set (q := r * of_nat (length modernHues)).
  assert (Hq : 0 <= q /\ q < 5).
  { unfold q. change (of_nat (length modernHues)) with 5. lra. }
  pose proof (Qfloor_le q) as Hlo. pose proof (Qlt_floor q) as Hhi.
  assert (Hf : (0 <= Qfloor q < 5)%Z).
  { split.
    - assert (H : inject_Z 0 < inject_Z (Qfloor q + 1)) by (change (inject_Z 0) with 0; lra).
      rewrite <- Zlt_Qlt in H. lia.
    - assert (H : inject_Z (Qfloor q) < inject_Z 5) by (change (inject_Z 5) with 5; lra).
      by rewrite <- Zlt_Qlt in H. }
  assert (Hc : (Qfloor q = 0 \/ Qfloor q = 1 \/ Qfloor q = 2 \/ Qfloor q = 3
                \/ Qfloor q = 4)%Z) by lia.
  destruct Hc as [-> | [-> | [-> | [-> | ->]]]]; eexists; (split; [| reflexivity]);
    unfold modernHues; repeat constructor.
Qed.

Lemma new_particle_spawned (B : Browser) (canvas : Canvas) (c : Cursor) :
  unit_random B -> 0 < width canvas -> 0 < height canvas -> 0 < Math_PI B ->
  spawned B canvas (new_particle B canvas c).1.1 /\
  (new_particle B canvas c).1.2 = [] /\
  (new_particle B canvas c).2 = mkCursor (8 + draws c) (reads c).
Proof.
  intros Hr Hw Hh Hpi. split; [| done].
  change (new_particle B canvas c).1.1 with
    {| x := random_at B (1 + draws c) * width canvas;
       y := random_at B (2 + draws c) * height canvas;
       size := random_at B (3 + draws c) * 35 + 15;
       vx := (random_at B (4 + draws c) - 0.5) * 6;
       vy := (random_at B (5 + draws c) - 0.5) * 6;
       color := hsl (inject_Z <$> array_get modernHues
                       (Math_floor (random_at B (draws c) * of_nat (length modernHues))))
                    90 60;
       rotation := random_at B (6 + draws c) * Math_PI B * 2;
       rv := (random_at B (7 + draws c) - 0.5) * 0.15 |}.
  unfold spawned. cbn [x y size vx vy color rotation rv].
  destruct (Hr (draws c)) as [A0 A1]. destruct (Hr (1 + draws c)%nat) as [B0 B1].
  destruct (Hr (2 + draws c)%nat) as [C0 C1]. destruct (Hr (3 + draws c)%nat) as [D0 D1].
  destruct (Hr (4 + draws c)%nat) as [E0 E1]. destruct (Hr (5 + draws c)%nat) as [F0 F1].
  destruct (Hr (6 + draws c)%nat) as [G0 G1]. destruct (Hr (7 + draws c)%nat) as [I0 I1].
  destruct (hue_index _ A0 A1) as (hue & Hin & ->).
  repeat apply conj; try lra; try nra.
  by exists hue.
Qed.

Lemma Array_from_Forall {A} (P : A -> Prop) (k : nat) (f : M A) :
  (forall c, P (f c).1.1 /\ (f c).1.2 = [] /\ (f c).2 = mkCursor (k + draws c) (reads c)) ->
  forall (n : nat) (c : Cursor),
    Forall P (Array_from n f c).1.1 /\
    (Array_from n f c).1.2 = [] /\
    (Array_from n f c).2 = mkCursor (n * k + draws c) (reads c).
Proof.
  intros Hf n. induction n as [|n IH]; intros c; [by destruct c |].
  cbn [Array_from]. unfold mbind, M_bind.
  destruct (Hf c) as (Hp & Ho & Hc).
  destruct (f c) as [[a ops] c']. cbn [fst snd] in *. subst ops c'.
  destruct (IH (mkCursor (k + draws c) (reads c))) as (Hl & Ho' & Hc').
  destruct (Array_from n f _) as [[l ops'] c'']. cbn [fst snd draws reads] in *.
  subst ops' c''. cbn. repeat split; [by constructor |]. f_equal. lia.
Qed.

(** X11: with random numbers in [0, 1) and a canvas that is not empty,
    the initialisation makes 45 particles, each inside the canvas, of size
    in [15, 50), of velocity in [-3, 3) along each axis, of one of the five
    hues, of rotation in [0, 2 pi) and of spin in [-0.075, 0.075); it draws
    360 random numbers and nothing on the canvas. *)
Theorem spawned_particles_in_range (B : Browser) (canvas : Canvas) (c : Cursor) :
  unit_random B ->
  0 < width canvas ->
  0 < height canvas ->
  0 < Math_PI B ->
  let r := init_particles B cubic canvas [] c in
  length r.1.1 = 45%nat /\
  Forall (spawned B canvas) r.1.1 /\
  r.1.2 = [] /\
  r.2 = mkCursor (360 + draws c) (reads c).
Proof.
  intros Hr Hw Hh Hpi. cbn zeta.
  change (init_particles B cubic canvas [] c)
    with (Array_from 45 (new_particle B canvas) c).
  split; [apply Array_from_length |].
  apply (Array_from_Forall (spawned B canvas) 8 (new_particle B canvas)).
  intros c'. by apply new_particle_spawned.
Qed.

Lemma spawned_particles_witness :
  Forall (spawned still viewport) (init_particles still cubic viewport [] origin).1.1.
Proof.
  refine (proj1 (proj2 (spawned_particles_in_range still viewport origin _ _ _ _)));
    try reflexivity.
  intros n. split; [discriminate | reflexivity].
Defined.

(** ** Frames of mode "waves" *)

Lemma below_half (n : nat) :
  (n <= 2 * below (of_nat n / 2) /\ 2 * below (of_nat n / 2) <= n + 1)%nat.
Proof.
  change (below (of_nat n / 2)) with (Z.to_nat (- (- (Z.of_nat n * 1) / 2)))%Z.
  Z.div_mod_to_equations. lia.
Qed.

(** One ribbon: a point for each index below [half], as long as there are
    bins, each point after a reading of the clock. *)
Lemma ribbon_run (B : Browser) (half sliceWidth bass : number) (canvas : Canvas)
  (j : nat) (rest : Uint8Array) (i : nat) (x0 : number) (c : Cursor) :
  exists ops,
    ribbon B half sliceWidth bass canvas j i rest x0 c
    = (tt, ops, mkCursor (draws c) (length ops + reads c)) /\
    length ops = (length rest `min` (below half - i))%nat.
Proof.
  revert i x0 c. induction rest as [|d rest IH]; intros i x0 c.
  - exists []. by destruct c.
  - cbn [ribbon]. destruct (ltb (of_nat i) half) eqn:Hlt.
    + apply ltb_below in Hlt.
      unfold mbind, M_bind, Date_now.
      destruct (IH (S i) (x0 + sliceWidth) (mkCursor (draws c) (S (reads c))))
        as (ops & Hops & Hlen).
      destruct (i =? 0)%nat; unfold ctx; rewrite Hops;
        (eexists (_ :: ops); split;
         [cbn; apply (f_equal2 pair); [reflexivity | f_equal; lia]
         | cbn [length]; lia]).
    + apply ltb_not_below in Hlt. exists []. split; [by destruct c |].
      cbn [length]. lia.
Qed.

Lemma ribbons_run (B : Browser) (volume bass : number) (frequencyData : Uint8Array)
  (canvas : Canvas) (hues : list Z) (j : nat) (c : Cursor) :
  let points := below (of_nat (length frequencyData) / 2) in
  exists ops,
    ribbons B volume bass frequencyData canvas j hues c
    = (tt, ops, mkCursor (draws c) (length hues * (1 + points) + reads c)) /\
    length ops = (length hues * (7 + points))%nat.
Proof.
  cbn zeta. revert j c. induction hues as [|hue hues IH]; intros j c.
  - exists []. by destruct c.
  - cbn [ribbons]. unfold mbind, M_bind, Date_now, ctx.
    destruct (ribbon_run B (of_nat (length frequencyData) / 2)
                (width canvas / (of_nat (length frequencyData) / 2)) bass canvas j
                frequencyData 0 0 (mkCursor (draws c) (S (reads c))))
      as (pts & Hpts & Hlen).
    rewrite Hpts. cbn [draws reads].
    destruct (IH (S j) (mkCursor (draws c) (length pts + S (reads c))))
      as (ops & Hops & Hlen').
    rewrite Hops. cbn [draws reads].
    pose proof (below_half (length frequencyData)) as Hh.
    assert (Hp : length pts = below (of_nat (length frequencyData) / 2)) by lia.
    eexists (_ :: _ :: _ :: _ :: _ :: _ :: pts ++ stroke :: ops). split.
    + cbn. apply (f_equal2 pair); [reflexivity | f_equal; lia].
    + cbn [length]. rewrite length_app. cbn [length]. lia.
Qed.


(** ** Teardown of the component *)

Lemma step_unscheduled (B : Browser) (comp : Component) (e : Event) (c : Cursor) :
  scheduled comp = None -> no_effect e = true -> step B comp e c = (comp, [], c).
Proof.
  intros Hs He. destruct e as [? ? ? | | |]; [done | | |]; cbn [step]; rewrite ?Hs; try done.
  destruct comp as [ps cv sch]. cbn in Hs. by subst sch.
Qed.

(** X13: after the cleanup of the effect nothing is drawn and nothing
    changes until the effect runs again: the requested frame is cancelled
    and the resize listener removed, so frames and resizes that follow
    leave the canvas, its size and the particles as they are. *)
Theorem cleanup_stops_drawing (B : Browser) (comp : Component) (es : list Event)
  (c : Cursor) :
  forallb no_effect es = true ->
  run B comp (Cleanup :: es) c
  = (mkComponent (particlesRef comp) (canvas comp) None, [], c).
Proof.
  intros Hes. cbn [run step]. unfold mbind, M_bind, ret, mret, M_ret.
  set (comp0 := mkComponent (particlesRef comp) (canvas comp) None).
  assert (Hrun : run B comp0 es c = (comp0, [], c)).
  { assert (Hs : scheduled comp0 = None) by done. clearbody comp0.
    induction es as [|e es IH]; [done |].
    cbn [forallb] in Hes. apply andb_true_iff in Hes as [He Hes].
    cbn [run]. unfold mbind, M_bind. rewrite step_unscheduled by done.
    by rewrite IH. }
  by rewrite Hrun.
Qed.

Lemma cleanup_stops_drawing_witness :
  run still (mkComponent [leaving] viewport
               (Some (mkProps (Some (snapshot all_255 silence)) cubic 1)))
      [Cleanup; Frame; Resize (mkCanvas 10 10); Frame] origin
  = (mkComponent [leaving] viewport None, [], origin).
Proof.
  apply (cleanup_stops_drawing still
           (mkComponent [leaving] viewport
              (Some (mkProps (Some (snapshot all_255 silence)) cubic 1)))
           [Frame; Resize (mkCanvas 10 10); Frame] origin).
  reflexivity.
Defined.

(** ** The signal-strength indicator as a bar *)

Lemma segment_lit_below (a : AudioData) (i : nat) :
  App.segment_lit a i = bool_decide (i < below (volume a * 5))%nat.
Proof.
  apply eq_true_iff_eq. rewrite bool_decide_eq_true.
  unfold App.segment_lit, gtb. apply ltb_below.
Qed.

(** X14: the lit segments of the indicator are the first [k] of the five,
    where [k] is [ceil(volume * 5)] capped at 5: no segment is lit above a
    dark one, none is lit at volume 0, and all five are lit exactly when
    the volume is above 0.8. *)
Theorem signal_strength_is_a_bar (a : AudioData) :
  let k := (below (volume a * 5) `min` 5)%nat in
  App.signal_strength a = replicate k true ++ replicate (5 - k) false /\
  (volume a <= 0 -> k = 0%nat) /\
  (k = 5%nat <-> 0.8 < volume a).
Proof.
  cbn zeta. split; [| split].
  - unfold App.signal_strength. cbn [map seq]. rewrite !segment_lit_below.
    destruct (below (volume a * 5)) as [|[|[|[|[|n]]]]];
      repeat first [rewrite bool_decide_eq_true_2 by lia
                   | rewrite bool_decide_eq_false_2 by lia];
      rewrite ?(Nat.min_r (S (S (S (S (S n))))) 5) by lia; reflexivity.
  - intros Hv. destruct (below (volume a * 5)) as [|n] eqn:Hb; [done |].
    assert (Hlt : (0 < below (volume a * 5))%nat) by lia.
    apply below_lt in Hlt. change (of_nat 0) with 0 in Hlt. lra.
  - assert (H4 : (4 < below (volume a * 5))%nat <-> 0.8 < volume a).
    { rewrite below_lt. change (of_nat 4) with 4. split; intros; lra. }
    rewrite <- H4. lia.
Qed.

(** ** The session of the hook *)

Lemma fill_full (src dst : Uint8Array) : length src = length dst -> fill src dst = src.
Proof.
  intros H. unfold fill. rewrite take_ge, drop_ge by lia. apply app_nil_r.
Qed.

(** Once the refs are set and the stream and context are open, [update]
    leaves a whole session. *)
Lemma update_session (freq time : Uint8Array) (a : option AudioData)
  (c : AudioContext) (d td : Uint8Array) (src : MediaStreamAudioSourceNode)
  (id : option positive) (p : Platform) :
  length d = 128%nat -> length td = 128%nat ->
  mediaStream src ∈ live_streams p ->
  context_id c ∈ running_contexts p ->
  coherent (update freq time
              (mkHook a (Some c) (Some (mkAnalyser 256)) (Some d) (Some td) (Some src) id,
               p)).
Proof.
  intros Hd Htd Hs Hc. right. cbn.
  eexists _, c, (fill freq d), (fill time td), src, (next_frame p).
  split; [reflexivity |]. rewrite !fill_length.
  repeat split; try done.
  apply elem_of_union_l. by apply elem_of_singleton.
Qed.

Lemma step_coherent (st : State) (e : Analyzer.Event) :
  coherent st -> coherent (Analyzer.step st e).
Proof.
  destruct st as [h p]. intros Hst.
  destruct e as [| [err | freq time] | | id freq time]; cbn [Analyzer.step].
  - unfold start_call. destruct (audioContextRef h); [done |].
    destruct Hst as [Hi | (a & c & d & td & src & id & Hh & ?)]; [by left |].
    right. by exists a, c, d, td, src, id.
  - unfold start_resume. destruct (pending_requests p) as [|n]; [done |].
    cbn [try_block catch_block].
    destruct Hst as [Hi | (a & c & d & td & src & id & Hh & ?)]; [by left |].
    right. by exists a, c, d, td, src, id.
  - unfold start_resume. destruct (pending_requests p) as [|n]; [done |].
    cbn [try_block]. apply update_session; cbn; try done.
    + apply elem_of_union_l. by apply elem_of_singleton.
    + apply elem_of_union_l. by apply elem_of_singleton.
  - by left.
  - unfold animation_frame. case_decide; [| done].
    destruct Hst as [Hi | (a & c & d & td & src & id' & Hh & Hd & Htd & _ & _ & _ & Hs & Hc)].
    + cbn in Hi. subst h. by left.
    + cbn [fst snd] in *. subst h. by apply update_session.
Qed.

Lemma run_coherent (es : list Analyzer.Event) (st : State) :
  coherent st -> coherent (Analyzer.run st es).
Proof.
  revert st. induction es as [|e es IH]; intros st Hst; [done |].
  cbn. by apply IH, step_coherent.
Qed.

(** X15: whatever happens to the hook, it holds a whole session or none:
    either the snapshot and the six refs are all null, or they are all
    set, with an analyser of [fftSize] 256, two buffers of 128 samples and
    a published snapshot that carries the contents of those buffers. *)
Theorem session_is_all_or_nothing (es : list Analyzer.Event) :
  let h := (Analyzer.run initial es).1 in
  h = mkHook None None None None None None None \/
  exists a c d td src id,
    h = mkHook (Some a) (Some c) (Some (mkAnalyser 256)) (Some d) (Some td)
               (Some src) (Some id) /\
    length d = 128%nat /\ length td = 128%nat /\
    frequencyData a = d /\ timeData a = td.
Proof.
  cbn zeta.
  destruct (run_coherent es initial (or_introl eq_refl))
    as [Hi | (a & c & d & td & src & id & Hh & Hd & Htd & Hf & Ht & _)];
    [by left | right].
  by exists a, c, d, td, src, id.
Qed.

(** X16: whatever happens to the hook, what its refs hold is open: the
    frame in [animationFrameRef] is requested, the context in
    [audioContextRef] is running and the stream of [sourceRef] is live. *)
Theorem session_resources_are_open (es : list Analyzer.Event) :
  let st := Analyzer.run initial es in
  (forall id, animationFrameRef st.1 = Some id -> id ∈ frame_requests st.2) /\
  (forall c, audioContextRef st.1 = Some c -> context_id c ∈ running_contexts st.2) /\
  (forall src, sourceRef st.1 = Some src -> mediaStream src ∈ live_streams st.2).
Proof.
  cbn zeta.
  destruct (run_coherent es initial (or_introl eq_refl))
    as [Hi | (a & c & d & td & src & id & Hh & _ & _ & _ & _ & Hid & Hs & Hc)];
    rewrite ?Hi, ?Hh; cbn; repeat split; try done.
  - by intros ? [= <-].
  - by intros ? [= <-].
  - by intros ? [= <-].
Qed.

(** ** Activation, ticks and deactivation *)

(** X17: from a hook that holds nothing, a granted activation whose
    analyser delivers 128 samples publishes their snapshot at once, keeps
    them in the buffers, opens one stream and one context, requests one
    frame and leaves no request pending beyond those there were; calling
    [start] again is then a no-op. *)
Theorem activation_publishes (p : Platform) (freq time : Uint8Array) :
  length freq = 128%nat ->
  length time = 128%nat ->
  let st := Analyzer.run (initial_hook, p)
              [CallStart; MediaSettled (Resolves freq time)] in
  st.1 = mkHook (Some (snapshot freq time))
                (Some (mkContext (next_context p))) (Some (mkAnalyser 256))
                (Some freq) (Some time)
                (Some (mkSource (next_stream p))) (Some (next_frame p)) /\
  live_streams st.2 = {[ next_stream p ]} ∪ live_streams p /\
  running_contexts st.2 = {[ next_context p ]} ∪ running_contexts p /\
  frame_requests st.2 = {[ next_frame p ]} ∪ frame_requests p /\
  pending_requests st.2 = pending_requests p /\
  Analyzer.step st CallStart = st.
Proof.
  intros Hf Ht. cbn -[fill snapshot new_Uint8Array].
  rewrite !fill_full by (unfold new_Uint8Array; by rewrite length_replicate).
  by repeat split.
Qed.

Lemma activation_publishes_witness :
  Analyzer.audioData
    (Analyzer.run initial [CallStart; MediaSettled (Resolves all_255 silence)]).1
  = Some (snapshot all_255 silence).
Proof.
  pose proof (activation_publishes initial_platform all_255 silence eq_refl eq_refl)
    as [H _].
  exact (f_equal Analyzer.audioData H).
Defined.

(** X18: in a session, when the browser runs a requested frame and the
    analyser delivers 128 samples, the snapshot published is the one of
    those samples, whatever was published before, and the next frame is
    requested under a new handle. *)
Theorem tick_publishes_latest (es : list Analyzer.Event) (id : positive)
  (freq time : Uint8Array) :
  let st := Analyzer.run initial es in
  audioContextRef st.1 <> None ->
  id ∈ frame_requests st.2 ->
  length freq = 128%nat ->
  length time = 128%nat ->
  let st' := Analyzer.step st (AnimationFrame id freq time) in
  Analyzer.audioData st'.1 = Some (snapshot freq time) /\
  dataArrayRef st'.1 = Some freq /\
  timeArrayRef st'.1 = Some time /\
  animationFrameRef st'.1 = Some (next_frame st.2) /\
  frame_requests st'.2 = {[ next_frame st.2 ]} ∪ (frame_requests st.2 ∖ {[ id ]}).
Proof.
  cbn zeta. intros Hctx Hid Hf Ht.
  pose proof (run_coherent es initial (or_introl eq_refl)) as Hco.
  destruct (Analyzer.run initial es) as [h p]. cbn [fst snd] in *.
  destruct Hco as [Hi | (a & c & d & td & src & id' & Hh & Hd & Htd & _)];
    cbn [fst] in *; subst h; [done |].
  cbn [Analyzer.step]. unfold animation_frame. rewrite decide_True by done.
  cbn -[fill snapshot]. rewrite !fill_full by congruence. by repeat split.
Qed.

Lemma tick_publishes_latest_witness :
  Analyzer.audioData
    (Analyzer.run initial
       [CallStart; MediaSettled (Resolves all_255 silence);
        AnimationFrame 1 faint silence]).1
  = Some (snapshot faint silence).
Proof.
  refine (proj1 (tick_publishes_latest
                   [CallStart; MediaSettled (Resolves all_255 silence)]
                   1 faint silence _ _ eq_refl eq_refl)).
  - discriminate.
  - apply elem_of_union_l. by apply elem_of_singleton.
Defined.

(** X19: after [stop], if no request for the microphone is pending, no
    frame that still fires and no further [stop] publishes anything or
    sets any ref: the hook holds nothing until [start] is called again. *)
Theorem stop_ends_ticks (st : State) (es : list Analyzer.Event) :
  pending_requests st.2 = 0%nat ->
  CallStart ∉ es ->
  (Analyzer.run (stop st) es).1 = initial_hook /\
  Analyzer.audioData (Analyzer.run (stop st) es).1 = None.
Proof.
  intros Hp Hes.
  assert (Hi : idle (stop st)) by (destruct st as [h p]; by split).
  destruct (run_idle es _ Hes Hi) as [Hr _]. by rewrite Hr.
Qed.

Lemma stop_ends_ticks_witness :
  Analyzer.audioData
    (Analyzer.run
       (stop (Analyzer.run initial [CallStart; MediaSettled (Resolves all_255 silence)]))
       [AnimationFrame 1 faint silence]).1
  = None.
Proof.
  refine (proj2 (stop_ends_ticks
                   (Analyzer.run initial
                      [CallStart; MediaSettled (Resolves all_255 silence)])
                   [AnimationFrame 1 faint silence] eq_refl _)).
  intros H. apply elem_of_cons in H as [H | H]; [discriminate |].
  by apply elem_of_nil in H.
Defined.

(** X20: [stop] does not cancel a request for the microphone that is
    still pending: when the permission is granted after [stop], [start]
    resumes and sets up the whole session, stream, context, frame request
    and published snapshot, although the hook was deactivated. *)
Theorem stop_does_not_cancel_pending_request (p : Platform) (freq time : Uint8Array) :
  let st := Analyzer.run (initial_hook, p)
              [CallStart; CallStop; MediaSettled (Resolves freq time)] in
  Analyzer.audioData st.1
  = Some (snapshot (fill freq (new_Uint8Array 128)) (fill time (new_Uint8Array 128))) /\
  audioContextRef st.1 = Some (mkContext (next_context p)) /\
  sourceRef st.1 = Some (mkSource (next_stream p)) /\
  animationFrameRef st.1 = Some (next_frame p) /\
  next_stream p ∈ live_streams st.2 /\
  next_context p ∈ running_contexts st.2 /\
  next_frame p ∈ frame_requests st.2.
Proof.
  cbn -[fill snapshot new_Uint8Array].
  repeat split; apply elem_of_union_l; by apply elem_of_singleton.
Qed.

(** X21: two calls of [start] before the first permission is granted both
    pass the guard and both set up a session; the refs keep the second
    one only, so a later [stop] empties the hook but leaves the stream
    and the context of the first session open. *)
Theorem racing_starts_leak (p : Platform) (freq time freq' time' : Uint8Array) :
  let st := Analyzer.run (initial_hook, p)
              [CallStart; CallStart;
               MediaSettled (Resolves freq time);
               MediaSettled (Resolves freq' time');
               CallStop] in
  st.1 = initial_hook /\
  next_stream p ∈ live_streams st.2 /\
  (S (next_stream p) ∉ live_streams st.2) /\
  next_context p ∈ running_contexts st.2 /\
  (S (next_context p) ∉ running_contexts st.2) /\
  pending_requests st.2 = pending_requests p.
Proof.
  cbn -[fill snapshot new_Uint8Array]. repeat split.
  - apply elem_of_difference. split.
    + apply elem_of_union_r, elem_of_union_l. by apply elem_of_singleton.
    + rewrite elem_of_singleton. lia.
  - apply not_elem_of_difference. right. by apply elem_of_singleton.
  - apply elem_of_difference. split.
    + apply elem_of_union_r, elem_of_union_l. by apply elem_of_singleton.
    + rewrite elem_of_singleton. lia.
  - apply not_elem_of_difference. right. by apply elem_of_singleton.
Qed.
